(** * NeuroSputnik: the training-corpus builder and the embedded engine

    A shallow embedding of [learning/dataset-builder.js] (class
    [DatasetBuilder]) and of the WebAssembly wrapper [OllamaWebEngine],
    followed by the properties of both that the design document states.
    The application class [NeuroSputnikApp] and the handlers of the
    service worker are embedded as well, with further properties that
    the code of the four parts shows.

    Conventions of the embedding.
    - A JavaScript string is its UTF-8 byte sequence (a Rocq [string]);
      [js_length] recovers the number of UTF-16 code units that [.length]
      returns.  Strings are assumed well formed (no lone surrogates), for
      which substring search on bytes and on code units coincide.
    - A JavaScript number that the code computes with (weights, accuracies,
      rates) is an exact rational of [Q]: binary64 rounding, NaN and the
      infinities are outside the model.  Counters, time stamps, pointers
      and status codes are integers of [Z].
    - An array is a list in insertion order: the head is the oldest
      element and [push] appends at the end.
    - The foreign runtime, the host and the clock are inputs: the runtime
      is an interface ([Runtime]) over an abstract world, [Date.now()] is an
      argument of the recording functions. *)

From Stdlib Require Import ZArith QArith Qminmax Qabs Qround Lqa Lia Ascii String.
From Stdlib.Strings Require Import Byte.
From Stdlib Require Import PrimFloat.
From Stdlib Require Uint63.
From stdpp Require Import base list strings gmap pretty.

Open Scope string_scope.
Open Scope Z_scope.

(** ** JavaScript strings *)

Module JsString.

(** Number of UTF-16 code units contributed by a UTF-8 byte: continuation
    bytes count for nothing, the lead byte of a four-byte sequence
    (a surrogate pair) counts for two. *)
Definition utf16_units (c : ascii) : nat :=
  let n := nat_of_ascii c in
  if (n <? 128)%nat then 1%nat
  else if (n <? 192)%nat then 0%nat
  else if (n <? 240)%nat then 1%nat
  else 2%nat.

(** [s.length] *)
Fixpoint js_length (s : string) : nat :=
  match s with
  | EmptyString => 0%nat
  | String c s' => (utf16_units c + js_length s')%nat
  end.

Definition in_range (lo hi n : nat) : bool := ((lo <=? n) && (n <=? hi))%nat.

(** [s.toLowerCase()] on the Basic Latin block and on the Cyrillic block
    U+0400..U+042F, where every keyword of the classifiers lives; other
    code points are left as they are.
    - U+0041..U+005A (A..Z): one byte, plus 32;
    - U+0410..U+041F: D0 90..9F becomes D0 B0..BF;
    - U+0420..U+042F: D0 A0..AF becomes D1 80..8F;
    - U+0400..U+040F: D0 80..8F becomes D1 90..9F. *)
Fixpoint toLowerCase (s : string) : string :=
  match s with
  | EmptyString => EmptyString
  | String c s' =>
      let n := nat_of_ascii c in
      if in_range 65 90 n then String (ascii_of_nat (n + 32)) (toLowerCase s')
      else if (n =? 208)%nat then
        match s' with
        | String d s'' =>
            let m := nat_of_ascii d in
            if in_range 144 159 m then
              String c (String (ascii_of_nat (m + 32)) (toLowerCase s''))
            else if in_range 160 175 m then
              String (ascii_of_nat 209) (String (ascii_of_nat (m - 32)) (toLowerCase s''))
            else if in_range 128 143 m then
              String (ascii_of_nat 209) (String (ascii_of_nat (m + 16)) (toLowerCase s''))
            else String c (toLowerCase s')
        | EmptyString => String c EmptyString
        end
      else String c (toLowerCase s')
  end.

(** [hay.includes(needle)] *)
Definition includes (hay needle : string) : bool :=
  match String.index 0 needle hay with
  | Some _ => true
  | None => false
  end.

(** [keywords.some(keyword => message.includes(keyword))] *)
Definition some_included (message : string) (keywords : list string) : bool :=
  existsb (includes message) keywords.

End JsString.

Import JsString.

(** ** The host platform

    [Number.prototype.toString], which [JSON.stringify] and template
    strings apply to numbers, is a function of the host. *)

Class Platform := numberToString : Q -> string.

(** A host printer that agrees with JavaScript on integers (the only
    numbers the closed examples below print): decimal digits, with a
    leading minus sign. *)
Definition integerToString : Platform := fun q => pretty (Qnum q / Zpos (Qden q)).

(** ** JSON text, as [JSON.stringify] writes it without indentation *)

Module JSON.

Definition dq : string := String (ascii_of_nat 34) EmptyString.
Definition bs : string := String (ascii_of_nat 92) EmptyString.

Definition hex_digit (n : nat) : ascii :=
  ascii_of_nat (if (n <? 10)%nat then 48 + n else 87 + n).

(** One character of a quoted string (QuoteJSONString). *)
Definition escape (c : ascii) : string :=
  let n := nat_of_ascii c in
  if (n =? 34)%nat then bs +:+ dq
  else if (n =? 92)%nat then bs +:+ bs
  else if (n =? 8)%nat then "\b"
  else if (n =? 12)%nat then "\f"
  else if (n =? 10)%nat then "\n"
  else if (n =? 13)%nat then "\r"
  else if (n =? 9)%nat then "\t"
  else if (n <? 32)%nat then
    "\u00" +:+ String (hex_digit (n / 16)) (String (hex_digit (n mod 16)) EmptyString)
  else String c EmptyString.

Fixpoint escape_all (s : string) : string :=
  match s with
  | EmptyString => EmptyString
  | String c s' => escape c +:+ escape_all s'
  end.

Definition quote (s : string) : string := dq +:+ escape_all s +:+ dq.

Fixpoint join (sep : string) (items : list string) : string :=
  match items with
  | [] => EmptyString
  | [x] => x
  | x :: rest => x +:+ sep +:+ join sep rest
  end.

Definition array (items : list string) : string := "[" +:+ join "," items +:+ "]".

(** A property whose value is [undefined] is left out. *)
Definition member (kv : string * option string) : option string :=
  match kv with
  | (k, Some v) => Some (quote k +:+ ":" +:+ v)
  | (_, None) => None
  end.

Definition object (fields : list (string * option string)) : string :=
  "{" +:+ join "," (omap member fields) +:+ "}".

Definition integer (n : Z) : string := pretty n.

End JSON.

(** A value the builder stores and serializes but never inspects
    ([decisions], [userPreferences], [learningSessions]). *)
#[warnings="-register-all"]
Inductive JsValue :=
  | JsNull
  | JsBool (b : bool)
  | JsNumber (q : Q)
  | JsString (s : string)
  | JsArray (items : list JsValue)
  | JsObject (fields : list (string * JsValue)).

Fixpoint stringify_value `{Platform} (v : JsValue) : string :=
  match v with
  | JsNull => "null"
  | JsBool b => if b then "true" else "false"
  | JsNumber q => numberToString q
  | JsString s => JSON.quote s
  | JsArray items => JSON.array (map stringify_value items)
  | JsObject fields =>
      JSON.object (map (fun kv => (fst kv, Some (stringify_value (snd kv)))) fields)
  end.

(** ** The corpus builder: [class DatasetBuilder] *)

Inductive Topic := programming | science | learning | creative | technical | general.

Inductive Sentiment := positive | neutral | negative.

Definition topic_name (t : Topic) : string :=
  match t with
  | programming => "programming"
  | science => "science"
  | learning => "learning"
  | creative => "creative"
  | technical => "technical"
  | general => "general"
  end.

Definition sentiment_name (s : Sentiment) : string :=
  match s with
  | positive => "positive"
  | neutral => "neutral"
  | negative => "negative"
  end.

Definition Topic_eqb (a b : Topic) : bool :=
  match a, b with
  | programming, programming | science, science | learning, learning
  | creative, creative | technical, technical | general, general => true
  | _, _ => false
  end.

Record ConversationMetadata := {
  message_length : Z;
  response_length : Z;
  topic : Topic;
  sentiment : Sentiment
}.

Record Conversation := {
  timestamp : Z;
  user_message : string;
  ai_response : string;
  context : string;
  metadata : ConversationMetadata
}.

(** The [performance] object a game hands over: the four properties the
    builder reads, each possibly [undefined]. *)
Record Performance := {
  perf_accuracy : option Q;
  perf_speed : option Q;
  perf_consistency : option Q;
  focusTime : option Q
}.

Record LearningMetrics := {
  accuracy : Q;
  speed : Q;
  consistency : Q;
  improvement_rate : Q;
  attention_span : Q
}.

Record GameSession := {
  game_timestamp : Z;
  game_type : string;
  performance : Performance;
  decisions : JsValue;
  outcome : string;
  learning_metrics : LearningMetrics
}.

Record TrainingExample := {
  input : string;
  output : string;
  example_context : string;
  weight : Q
}.

Record DatasetBuilder := {
  conversations : list Conversation;
  gameData : list GameSession;
  userPreferences : JsValue;
  learningSessions : list JsValue;
  maxStorage : Z
}.

(** [constructor()] *)
Definition new_DatasetBuilder : DatasetBuilder :=
  {| conversations := [];
     gameData := [];
     userPreferences := JsObject [];
     learningSessions := [];
     maxStorage := 50 * 1024 * 1024 |}.

Definition set_conversations (l : list Conversation) (b : DatasetBuilder) : DatasetBuilder :=
  {| conversations := l;
     gameData := gameData b;
     userPreferences := userPreferences b;
     learningSessions := learningSessions b;
     maxStorage := maxStorage b |}.

Definition set_gameData (l : list GameSession) (b : DatasetBuilder) : DatasetBuilder :=
  {| conversations := conversations b;
     gameData := l;
     userPreferences := userPreferences b;
     learningSessions := learningSessions b;
     maxStorage := maxStorage b |}.

(** [array.slice(start)]: a negative [start] counts from the end, and
    [slice(-0)] is [slice(0)], the whole array. *)
Definition slice_from {A} (start : Z) (l : list A) : list A :=
  let len := Z.of_nat (length l) in
  let k := if start <? 0 then Z.max (len + start) 0 else Z.min start len in
  drop (Z.to_nat k) l.

(** [x || 0] on a number: zero is falsy. *)
Definition or_zero (x : Q) : Q := if Qeq_bool x 0 then 0%Q else x.

(** [x || 0] on a property that may be [undefined]. *)
Definition or_zero_opt (x : option Q) : Q :=
  match x with
  | Some q => or_zero q
  | None => 0%Q
  end.

(** The keyword table of [analyzeTopic], in the order [Object.entries]
    enumerates it. *)
Definition topics : list (Topic * list string) :=
  [ (programming, ["код"; "программир"; "алгоритм"; "python"; "javascript"; "функция"; "переменн"]);
    (science, ["наук"; "физик"; "хими"; "биолог"; "математ"; "теория"]);
    (learning, ["обуч"; "изуч"; "курс"; "учеб"; "заняти"]);
    (creative, ["идея"; "придумай"; "создай"; "креатив"; "творчеств"]);
    (technical, ["техник"; "компьютер"; "телефон"; "приложени"; "настройк"]) ].

Fixpoint first_topic (lowerMessage : string) (entries : list (Topic * list string)) : Topic :=
  match entries with
  | [] => general
  | (t, keywords) :: rest =>
      if some_included lowerMessage keywords then t else first_topic lowerMessage rest
  end.

Definition analyzeTopic (message : string) : Topic :=
  first_topic (toLowerCase message) topics.

Definition positiveWords : list string :=
  ["хорош"; "отличн"; "прекрасн"; "замечательн"; "спасиб"; "понрав"; "люб"].

Definition negativeWords : list string :=
  ["плох"; "ужасн"; "отвратительн"; "ненавиж"; "грустн"; "зл"; "разочарован"].

Definition analyzeSentiment (message : string) : Sentiment :=
  let lowerMessage := toLowerCase message in
  let score := 0 in
  let score :=
    fold_left (fun score word => if includes lowerMessage word then score + 1 else score)
              positiveWords score in
  let score :=
    fold_left (fun score word => if includes lowerMessage word then score - 1 else score)
              negativeWords score in
  if 0 <? score then positive else if score <? 0 then negative else neutral.

Definition calculateImprovementRate (b : DatasetBuilder) (p : Performance) : Q :=
  let recentSessions := slice_from (-5) (gameData b) in
  if (length recentSessions <? 2)%nat then 0%Q
  else
    let improvements := map (fun session => or_zero (accuracy (learning_metrics session)))
                            recentSessions in
    let totalImprovement :=
      (nth (length improvements - 1) improvements 0 - nth 0 improvements 0)%Q in
    (totalImprovement / inject_Z (Z.of_nat (length improvements) - 1))%Q.

Definition calculateAttentionSpan (p : Performance) : Q :=
  Qmin 100 (or_zero_opt (focusTime p) / 60 * 100)%Q.

Definition calculateLearningMetrics (b : DatasetBuilder) (p : Performance) : LearningMetrics :=
  {| accuracy := or_zero_opt (perf_accuracy p);
     speed := or_zero_opt (perf_speed p);
     consistency := or_zero_opt (perf_consistency p);
     improvement_rate := calculateImprovementRate b p;
     attention_span := calculateAttentionSpan p |}.

Definition calculateExampleWeight (conversation : Conversation) : Q :=
  let weight := 1.0%Q in
  let weight :=
    if 50 <? message_length (metadata conversation) then (weight * 1.2)%Q else weight in
  let weight :=
    if existsb (Topic_eqb (topic (metadata conversation))) [programming; science; technical]
    then (weight * 1.5)%Q else weight in
  let weight :=
    match sentiment (metadata conversation) with
    | negative => (weight * 0.7)%Q
    | _ => weight
    end in
  Qmin weight 2.0.

(** [Math.floor(n * 0.8)] for an array length [n].  The constant [0.8] is
    the double just above 4/5 (by [0.4 * 2^-53]), so the rounded product of
    a multiple of five is that multiple of four exactly, and for every
    other length below [2^50] the product stays more than [0.1] away from
    the next integer: the floor is that of [4 * n / 5]. *)
Definition floor_80_percent (n : nat) : Z := (4 * Z.of_nat n) / 5.

(** [k <= n * 0.8 < k + 1] in binary64, that is [Math.floor(n * 0.8) = k],
    for integers in the range of [Uint63]. *)
#[warnings="-inexact-float"]
Definition binary64_floor_80_percent_is (n k : Z) : bool :=
  let product := PrimFloat.mul (PrimFloat.of_uint63 (Uint63.of_Z n)) 0.8%float in
  PrimFloat.leb (PrimFloat.of_uint63 (Uint63.of_Z k)) product
  && PrimFloat.ltb product (PrimFloat.of_uint63 (Uint63.of_Z (k + 1))).

Section WithPlatform.
Context `{Platform}.

Definition stringify_metadata (m : ConversationMetadata) : string :=
  JSON.object
    [ ("message_length", Some (JSON.integer (message_length m)));
      ("response_length", Some (JSON.integer (response_length m)));
      ("topic", Some (JSON.quote (topic_name (topic m))));
      ("sentiment", Some (JSON.quote (sentiment_name (sentiment m)))) ].

Definition stringify_conversation (c : Conversation) : string :=
  JSON.object
    [ ("timestamp", Some (JSON.integer (timestamp c)));
      ("user_message", Some (JSON.quote (user_message c)));
      ("ai_response", Some (JSON.quote (ai_response c)));
      ("context", Some (JSON.quote (context c)));
      ("metadata", Some (stringify_metadata (metadata c))) ].

Definition stringify_performance (p : Performance) : string :=
  JSON.object
    [ ("accuracy", numberToString <$> perf_accuracy p);
      ("speed", numberToString <$> perf_speed p);
      ("consistency", numberToString <$> perf_consistency p);
      ("focusTime", numberToString <$> focusTime p) ].

Definition stringify_metrics (m : LearningMetrics) : string :=
  JSON.object
    [ ("accuracy", Some (numberToString (accuracy m)));
      ("speed", Some (numberToString (speed m)));
      ("consistency", Some (numberToString (consistency m)));
      ("improvement_rate", Some (numberToString (improvement_rate m)));
      ("attention_span", Some (numberToString (attention_span m))) ].

Definition stringify_game (g : GameSession) : string :=
  JSON.object
    [ ("timestamp", Some (JSON.integer (game_timestamp g)));
      ("game_type", Some (JSON.quote (game_type g)));
      ("performance", Some (stringify_performance (performance g)));
      ("decisions", Some (stringify_value (decisions g)));
      ("outcome", Some (JSON.quote (outcome g)));
      ("learning_metrics", Some (stringify_metrics (learning_metrics g))) ].

(** [new Blob([JSON.stringify({conversations, gameData})]).size]: the text
    is held as UTF-8 bytes, so its byte size is its length. *)
Definition getTotalDataSize (b : DatasetBuilder) : Z :=
  let dataString :=
    JSON.object
      [ ("conversations", Some (JSON.array (map stringify_conversation (conversations b))));
        ("gameData", Some (JSON.array (map stringify_game (gameData b)))) ] in
  Z.of_nat (String.length dataString).

Definition cleanupOldData (b : DatasetBuilder) : DatasetBuilder :=
  let conversationsToKeep := floor_80_percent (length (conversations b)) in
  let gamesToKeep := floor_80_percent (length (gameData b)) in
  let b := set_conversations (slice_from (- conversationsToKeep) (conversations b)) b in
  set_gameData (slice_from (- gamesToKeep) (gameData b)) b.

Definition checkStorageLimit (b : DatasetBuilder) : DatasetBuilder :=
  let totalSize := getTotalDataSize b in
  if maxStorage b <? totalSize then cleanupOldData b else b.

(** The record [recordConversation] builds. *)
Definition new_conversation (now : Z) (userMessage aiResponse context : string) : Conversation :=
  {| timestamp := now;
     user_message := userMessage;
     ai_response := aiResponse;
     context := context;
     metadata :=
       {| message_length := Z.of_nat (js_length userMessage);
          response_length := Z.of_nat (js_length aiResponse);
          topic := analyzeTopic userMessage;
          sentiment := analyzeSentiment userMessage |} |}.

Definition recordConversation (now : Z) (userMessage aiResponse context : string)
    (b : DatasetBuilder) : DatasetBuilder :=
  let conversation := new_conversation now userMessage aiResponse context in
  let b := set_conversations (conversations b ++ [conversation]) b in
  checkStorageLimit b.

(** The record [recordGameData] builds; the metrics read the sessions
    stored so far. *)
Definition new_gameSession (now : Z) (gameType : string) (p : Performance) (d : JsValue)
    (outcome : string) (b : DatasetBuilder) : GameSession :=
  {| game_timestamp := now;
     game_type := gameType;
     performance := p;
     decisions := d;
     outcome := outcome;
     learning_metrics := calculateLearningMetrics b p |}.

Definition recordGameData (now : Z) (gameType : string) (p : Performance) (d : JsValue)
    (outcome : string) (b : DatasetBuilder) : DatasetBuilder :=
  let gameSession := new_gameSession now gameType p d outcome b in
  let b := set_gameData (gameData b ++ [gameSession]) b in
  checkStorageLimit b.

Definition generateGameLearningOutput (gameSession : GameSession) : string :=
  let metrics := learning_metrics gameSession in
  "На основе игры " +:+ JSON.dq +:+ game_type gameSession +:+ JSON.dq
  +:+ " я улучшил: точность " +:+ numberToString (accuracy metrics)
  +:+ "%, скорость " +:+ numberToString (speed metrics)
  +:+ "%, концентрация " +:+ numberToString (attention_span metrics) +:+ "%".

Definition conversation_example (conv : Conversation) : TrainingExample :=
  {| input := user_message conv;
     output := ai_response conv;
     example_context := context conv;
     weight := calculateExampleWeight conv |}.

Definition game_example (game : GameSession) : TrainingExample :=
  {| input := "Игра: " +:+ game_type game +:+ ". Результат: " +:+ outcome game;
     output := generateGameLearningOutput game;
     example_context := "game_learning";
     weight := accuracy (learning_metrics game) |}.

Definition prepareTrainingData (b : DatasetBuilder) : list TrainingExample :=
  map conversation_example (conversations b) ++ map game_example (gameData b).

End WithPlatform.

(** *** Snapshots

    The object [exportDataset] serializes, which is also what [JSON.parse]
    hands to [importDataset]: on the data of this model (strings and finite
    numbers) parsing the serialized text gives the object back, so a
    snapshot is represented by the object and not by its text.  A parsed
    snapshot may lack any of its properties. *)

Record SnapshotMetadata := {
  total_examples : Z;
  export_date : string;
  version : string
}.

Record Dataset := {
  ds_conversations : option (list Conversation);
  ds_gameData : option (list GameSession);
  ds_userPreferences : option JsValue;
  ds_metadata : option SnapshotMetadata
}.

(** [exportDataset()]; [export_date] is the host's [new Date().toISOString()]. *)
Definition exportDataset (export_date : string) (b : DatasetBuilder) : Dataset :=
  {| ds_conversations := Some (conversations b);
     ds_gameData := Some (gameData b);
     ds_userPreferences := Some (userPreferences b);
     ds_metadata :=
       Some {| total_examples := Z.of_nat (length (conversations b)) + Z.of_nat (length (gameData b));
               export_date := export_date;
               version := "1.0" |} |}.

(** What the [FileReader] delivers: a read error, text that [JSON.parse]
    rejects, or a parsed snapshot. *)
Inductive FileContents :=
  | ReadError
  | Unparsable
  | Parsed (importedData : Dataset).

Inductive ImportResult :=
  | Resolved (value : bool) (b : DatasetBuilder)
  | Rejected (message : string) (b : DatasetBuilder).

(** [importDataset(file)]: [x || []] keeps an array, also an empty one. *)
Definition importDataset (file : FileContents) (b : DatasetBuilder) : ImportResult :=
  match file with
  | ReadError => Rejected "Ошибка чтения файла" b
  | Unparsable => Rejected "Ошибка парсинга файла датасета" b
  | Parsed importedData =>
      Resolved true
        {| conversations := default [] (ds_conversations importedData);
           gameData := default [] (ds_gameData importedData);
           userPreferences := default (JsObject []) (ds_userPreferences importedData);
           learningSessions := learningSessions b;
           maxStorage := maxStorage b |}
  end.

(** [formatTrainingData]: what the application hands to the engine. *)
Definition formatTrainingData (trainingData : list TrainingExample) : JsValue :=
  JsArray
    (map (fun example =>
            JsObject [ ("input", JsString (input example));
                       ("output", JsString (output example));
                       ("weight", JsNumber (weight example)) ])
         trainingData).

(** ** The engine: [class OllamaWebEngine] *)

(** [array.slice(start, end)] *)
Definition slice {A} (start end_ : Z) (l : list A) : list A :=
  let len := Z.of_nat (length l) in
  let from := if start <? 0 then Z.max (len + start) 0 else Z.min start len in
  let to := if end_ <? 0 then Z.max (len + end_) 0 else Z.min end_ len in
  take (Z.to_nat (to - from)) (drop (Z.to_nat from) l).

Inductive Exception := Error (message : string).

(** The errors the engine raises itself; the names are those of the design
    document, the messages those of the code. *)
Definition EngineNotInitialized : Exception := Error "Движок не инициализирован".
Definition EngineNotReady : Exception := Error "Модель не загружена".
Definition ModelLoadFailed (code : Z) : Exception :=
  Error ("Ошибка загрузки модели: код " +:+ pretty code).
Definition GenerationFailed : Exception := Error "Ошибка генерации ответа".
Definition TrainingFailed (code : Z) : Exception :=
  Error ("Ошибка обучения: код " +:+ pretty code).

(** How a call ends: with a value, with a thrown exception, or never. *)
Inductive Completion (A : Type) :=
  | Returns (a : A)
  | Throws (e : Exception)
  | Hangs.

Arguments Returns {A} a.
Arguments Throws {A} e.
Arguments Hangs {A}.

(** Everything the engine asks of the host and of the runtime instance:
    instantiating the module, the exports of the instance, writing into its
    linear memory, and the persistence helper [_saveToIndexedDB]. *)
Inductive ForeignCall :=
  | Instantiate
  | AllocateMemory (size : Z)
  | MemorySet (bytes : list byte) (ptr : Z)
  | LoadModel (ptr len limit : Z)
  | GenerateResponse (ptr len : Z) (maxTokens temperature topP : Q)
  | TrainModel (ptr len epochs : Z)
  | FreeMemory (ptr : Z)
  | GetModelSize
  | ExportModel
  | SaveToIndexedDB (key : string) (data : list byte).

(** The foreign side is opaque: any call may return a number, throw or
    never return, and changes the world as it likes. *)
Class Runtime (W : Type) := {
  supports_streaming : W -> bool;
  foreign : ForeignCall -> W -> Completion Z * W;
  memory : W -> list byte
}.

Record ModelDescriptor := {
  loaded : bool;
  model_size : Z
}.

Record OllamaWebEngine := {
  isInitialized : bool;
  isRunning : bool;
  currentModel : option string;
  models : gmap string ModelDescriptor;
  memoryLimit : Z
}.

(** [constructor()] *)
Definition new_OllamaWebEngine : OllamaWebEngine :=
  {| isInitialized := false;
     isRunning := false;
     currentModel := None;
     models := ∅;
     memoryLimit := 512 * 1024 * 1024 |}.

Definition Event : Type := ForeignCall * Completion Z.

(** The engine, the world it calls into and the foreign calls made so far. *)
Record System (W : Type) := {
  engine : OllamaWebEngine;
  world : W;
  trace : list Event
}.

Arguments engine {W} s.
Arguments world {W} s.
Arguments trace {W} s.

Definition M (W A : Type) : Type := System W -> Completion A * System W.

Definition ret {W A} (a : A) : M W A := fun s => (Returns a, s).

Definition throw {W A} (e : Exception) : M W A := fun s => (Throws e, s).

Definition bind {W A B} (m : M W A) (k : A -> M W B) : M W B :=
  fun s =>
    match m s with
    | (Returns a, s') => k a s'
    | (Throws e, s') => (Throws e, s')
    | (Hangs, s') => (Hangs, s')
    end.

(** [try { body } catch (error) { handler }] *)
Definition try_catch {W A} (body : M W A) (handler : Exception -> M W A) : M W A :=
  fun s =>
    match body s with
    | (Throws e, s') => handler e s'
    | r => r
    end.

Notation "'let*' x ':=' m 'in' k" := (bind m (fun x => k))
  (at level 10, x name, m at level 100, k at level 200).
Notation "'run*' m 'in' k" := (bind m (fun _ => k))
  (at level 10, m at level 100, k at level 200).

Definition this {W} : M W OllamaWebEngine := fun s => (Returns (engine s), s).

Definition update {W} (f : OllamaWebEngine -> OllamaWebEngine) : M W unit :=
  fun s => (Returns tt, {| engine := f (engine s); world := world s; trace := trace s |}).

(** A foreign call, recorded in the trace with the way it ended. *)
Definition call {W} `{Runtime W} (c : ForeignCall) : M W Z :=
  fun s =>
    let (r, w) := foreign c (world s) in
    (r, {| engine := engine s; world := w; trace := trace s ++ [(c, r)] |}).

(** [!this.currentModel]: [null] and the empty string are falsy. *)
Definition no_model (e : OllamaWebEngine) : bool :=
  match currentModel e with
  | None => true
  | Some name => String.eqb name ""
  end.

Section WithRuntime.
Context {W : Type} `{Runtime W} `{Platform}.

(** [async initialize()] *)
Definition initialize : M W bool :=
  try_catch
    (fun s =>
       if negb (supports_streaming (world s)) then ret false s
       else
         (run* call Instantiate in
          run* update (fun e =>
                 {| isInitialized := true;
                    isRunning := isRunning e;
                    currentModel := currentModel e;
                    models := models e;
                    memoryLimit := memoryLimit e |}) in
          ret true) s)
    (fun error => ret false).

(** The [try] block of [loadModel]. *)
Definition loadModel_body (modelName : string) (modelData : list byte) : M W bool :=
  let modelBuffer := modelData in
  let len := Z.of_nat (length modelBuffer) in
  let* modelPtr := call (AllocateMemory len) in
  run* call (MemorySet modelBuffer modelPtr) in
  let* e := this in
  let* result := call (LoadModel modelPtr len (memoryLimit e)) in
  if result =? 0 then
    run* update (fun e =>
           {| isInitialized := isInitialized e;
              isRunning := isRunning e;
              currentModel := Some modelName;
              models := <[modelName := {| loaded := true; model_size := len |}]> (models e);
              memoryLimit := memoryLimit e |}) in
    ret true
  else throw (ModelLoadFailed result).

(** [async loadModel(modelName, modelData)] *)
Definition loadModel (modelName : string) (modelData : list byte) : M W bool :=
  let* e := this in
  if negb (isInitialized e) then throw EngineNotInitialized
  else try_catch (loadModel_body modelName modelData) (fun error => ret false).

(** The bytes before the first zero byte, if there is one. *)
Fixpoint until_zero (bytes : list byte) : option (list byte) :=
  match bytes with
  | [] => None
  | b :: rest =>
      if Byte.eqb b x00 then Some [] else cons b <$> until_zero rest
  end.

(** [_readStringFromMemory(ptr)]: the loop stops at the first index
    [ptr + length] that holds a zero; an index outside the memory reads
    [undefined], which is not zero, so without a zero byte at or after
    [ptr] the loop never ends.  Decoding well-formed UTF-8 is the
    identity on the bytes. *)
Definition _readStringFromMemory (ptr : Z) : M W string :=
  fun s =>
    let memory := memory (world s) in
    let first := Z.max ptr 0 in
    match until_zero (drop (Z.to_nat first) memory) with
    | None => (Hangs, s)
    | Some found =>
        let length := first + Z.of_nat (length found) - ptr in
        let stringBytes := slice ptr (ptr + length) memory in
        (Returns (string_of_list_byte stringBytes), s)
    end.

Record GenerateOptions := {
  maxTokens : option Q;
  temperature : option Q;
  topP : option Q
}.

(** The [try] block of [generateResponse]. *)
Definition generateResponse_body (prompt : string) (options : GenerateOptions) : M W string :=
  let maxTokens := default 500%Q (maxTokens options) in
  let temperature := default 0.7%Q (temperature options) in
  let topP := default 0.9%Q (topP options) in
  let promptBuffer := list_byte_of_string prompt in
  let len := Z.of_nat (length promptBuffer) in
  let* promptPtr := call (AllocateMemory len) in
  run* call (MemorySet promptBuffer promptPtr) in
  let* responsePtr := call (GenerateResponse promptPtr len maxTokens temperature topP) in
  if responsePtr =? 0 then throw GenerationFailed
  else
    let* response := _readStringFromMemory responsePtr in
    run* call (FreeMemory responsePtr) in
    run* call (FreeMemory promptPtr) in
    ret response.

(** [async generateResponse(prompt, options = {})] *)
Definition generateResponse (prompt : string) (options : GenerateOptions) : M W string :=
  let* e := this in
  if no_model e then throw EngineNotReady
  else try_catch (generateResponse_body prompt options) (fun error => throw error).

(** The [try] block of [trainOnData]. *)
Definition trainOnData_body (trainingData : JsValue) (epochs : Z) : M W bool :=
  let trainingJson := stringify_value trainingData in
  let trainingBuffer := list_byte_of_string trainingJson in
  let len := Z.of_nat (length trainingBuffer) in
  let* trainingPtr := call (AllocateMemory len) in
  run* call (MemorySet trainingBuffer trainingPtr) in
  let* result := call (TrainModel trainingPtr len epochs) in
  run* call (FreeMemory trainingPtr) in
  if result =? 0 then ret true else throw (TrainingFailed result).

(** [async trainOnData(trainingData, epochs = 1)] *)
Definition trainOnData (trainingData : JsValue) (epochs : Z) : M W bool :=
  let* e := this in
  if no_model e then throw EngineNotReady
  else try_catch (trainOnData_body trainingData epochs) (fun error => ret false).

(** The [try] block of [saveModel]. *)
Definition saveModel_body (modelName : string) : M W bool :=
  let* modelSize := call GetModelSize in
  let* modelPtr := call ExportModel in
  let* modelData := (fun s => ret (slice modelPtr (modelPtr + modelSize) (memory (world s))) s) in
  run* call (SaveToIndexedDB modelName modelData) in
  run* call (FreeMemory modelPtr) in
  ret true.

(** [async saveModel(modelName)] *)
Definition saveModel (modelName : string) : M W bool :=
  let* e := this in
  if no_model e then throw EngineNotReady
  else try_catch (saveModel_body modelName) (fun error => ret false).

End WithRuntime.

(** *** The engine as a state machine *)

Inductive EngineState := Uninitialized | Ready | ModelLoaded.

(** The state the two fields encode: initialized or not, and whether a
    model has been accepted ([currentModel] is no longer [null]). *)
Definition engine_state (e : OllamaWebEngine) : EngineState :=
  if negb (isInitialized e) then Uninitialized
  else match currentModel e with
       | None => Ready
       | Some _ => ModelLoaded
       end.

Definition state_rank (st : EngineState) : Z :=
  match st with
  | Uninitialized => 0
  | Ready => 1
  | ModelLoaded => 2
  end.

Inductive Request :=
  | DoInitialize
  | DoLoadModel (modelName : string) (modelData : list byte)
  | DoGenerate (prompt : string) (options : GenerateOptions)
  | DoTrain (trainingData : JsValue) (epochs : Z)
  | DoSaveModel (modelName : string).

Inductive Reply :=
  | Flag (b : bool)
  | Text (s : string).

Section Runs.
Context {W : Type} `{Runtime W} `{Platform}.

Definition perform (r : Request) : M W Reply :=
  match r with
  | DoInitialize => let* b := initialize in ret (Flag b)
  | DoLoadModel modelName modelData => let* b := loadModel modelName modelData in ret (Flag b)
  | DoGenerate prompt options => let* t := generateResponse prompt options in ret (Text t)
  | DoTrain trainingData epochs => let* b := trainOnData trainingData epochs in ret (Flag b)
  | DoSaveModel modelName => let* b := saveModel modelName in ret (Flag b)
  end.

(** The calls of a sequence one after the other, as the application must
    issue them; a call that never returns ends the run. *)
Fixpoint run (requests : list Request) (s : System W) : System W :=
  match requests with
  | [] => s
  | r :: rest =>
      match perform r s with
      | (Hangs, s') => s'
      | (_, s') => run rest s'
      end
  end.

(** A new engine in a given world. *)
Definition boot (w : W) : System W :=
  {| engine := new_OllamaWebEngine; world := w; trace := [] |}.

End Runs.

(** *** Foreign buffers in a trace *)

(** Pointers handed out by [allocate_memory]. *)
Definition allocated (t : list Event) : list Z :=
  omap (fun ev => match ev with
                  | (AllocateMemory _, Returns ptr) => Some ptr
                  | _ => None
                  end) t.

(** Pointers passed to [free_memory]. *)
Definition freed (t : list Event) : list Z :=
  omap (fun ev => match ev with
                  | (FreeMemory ptr, _) => Some ptr
                  | _ => None
                  end) t.

Fixpoint remove_one (x : Z) (l : list Z) : list Z :=
  match l with
  | [] => []
  | y :: rest => if x =? y then rest else y :: remove_one x rest
  end.

(** The allocations of a trace that no [free_memory] of it releases. *)
Definition leaked (t : list Event) : list Z :=
  fold_left (fun live ptr => remove_one ptr live) (freed t) (allocated t).

(** *** A scripted runtime for closed examples

    A bump allocator whose [load_model], [generate_response] and
    [train_model] return fixed answers; a transfer beyond the memory
    throws, as [TypedArray.prototype.set] does. *)

Record Script := {
  next_free : Z;
  cells : list byte;
  load_status : Z;
  response_ptr : Z;
  train_status : Z;
  store_fails : bool
}.

Definition bump (n : Z) (w : Script) : Script :=
  {| next_free := next_free w + n;
     cells := cells w;
     load_status := load_status w;
     response_ptr := response_ptr w;
     train_status := train_status w;
     store_fails := store_fails w |}.

Definition scripted_foreign (c : ForeignCall) (w : Script) : Completion Z * Script :=
  match c with
  | Instantiate => (Returns 0, w)
  | AllocateMemory size => (Returns (next_free w), bump (Z.max size 1) w)
  | MemorySet bytes ptr =>
      if (ptr <? 0) || (Z.of_nat (length (cells w)) <? ptr + Z.of_nat (length bytes))
      then (Throws (Error "RangeError: offset is out of bounds"), w)
      else (Returns 0, w)
  | LoadModel _ _ _ => (Returns (load_status w), w)
  | GenerateResponse _ _ _ _ _ => (Returns (response_ptr w), w)
  | TrainModel _ _ _ => (Returns (train_status w), w)
  | FreeMemory _ => (Returns 0, w)
  | GetModelSize => (Returns 4, w)
  | ExportModel => (Returns (next_free w), bump 4 w)
  | SaveToIndexedDB _ _ =>
      if store_fails w then (Throws (Error "QuotaExceededError"), w) else (Returns 0, w)
  end.

Definition scripted : Runtime Script :=
  {| supports_streaming := fun _ => true;
     foreign := scripted_foreign;
     memory := cells |}.


(** *** Memory usage *)

(** [Math.round(x)]: the nearest integer, a tie going up. *)
Definition round (x : Q) : Z := Qfloor (x + (1 # 2)).

(** What [getMemoryUsage] returns: the number [0], or an object with the
    two sizes in MiB and the percentage, which is not a finite number
    when the total is zero. *)
Inductive MemoryUsage :=
  | NoUsage
  | Usage (used total : Z) (percentage : option Z).

(** [getMemoryUsage()]; the arguments are what [get_used_memory] and
    [get_total_memory] of the runtime answer. *)
Definition getMemoryUsage (e : OllamaWebEngine) (get_used_memory get_total_memory : Z)
    : MemoryUsage :=
  if negb (isInitialized e) then NoUsage
  else
    let used := inject_Z get_used_memory in
    let total := inject_Z get_total_memory in
    Usage (round (used / 1024 / 1024)) (round (total / 1024 / 1024))
          (if get_total_memory =? 0 then None else Some (round (used / total * 100))).

(** ** The application: [class NeuroSputnikApp]

    The application after [initializeComponents] has built its engine and
    its corpus builder.  Of the page it keeps what the methods below read
    and write: the text field, the children of the message list with
    their type and text, the current tab.  Styling, the conversion of the
    text to HTML and the copy of the history in [localStorage] are left
    out.  [Date.now()] is an argument, screen coordinates are rationals. *)

Definition nl : string := String (ascii_of_nat 10) EmptyString.

(** The UTF-8 string of a list of byte values. *)
Definition utf8 (bytes : list nat) : string :=
  fold_right (fun n s => String (ascii_of_nat n) s) EmptyString bytes.

(** The white space and the line terminators that [trim] removes: TAB,
    LF, VT, FF, CR, SP, U+00A0, U+1680, U+2000 to U+200A, U+2028, U+2029,
    U+202F, U+205F, U+3000 and U+FEFF. *)
Definition whiteSpace : list string :=
  map utf8
    ([ [9]; [10]; [11]; [12]; [13]; [32]; [194; 160]; [225; 154; 128] ]
     ++ map (fun n => [226; 128; n]) (seq 128 11)
     ++ [ [226; 128; 168]; [226; 128; 169]; [226; 128; 175]; [226; 129; 159];
          [227; 128; 128]; [239; 187; 191] ])%nat%list.

Fixpoint strip_prefix (p s : string) : option string :=
  match p, s with
  | EmptyString, _ => Some s
  | String a p', String b s' => if Ascii.eqb a b then strip_prefix p' s' else None
  | String _ _, EmptyString => None
  end.

Fixpoint strip_first (ps : list string) (s : string) : option string :=
  match ps with
  | [] => None
  | p :: rest =>
      match strip_prefix p s with
      | Some s' => Some s'
      | None => strip_first rest s
      end
  end.

(** At most [fuel] leading occurrences of the patterns removed. *)
Fixpoint strip_leading (fuel : nat) (ps : list string) (s : string) : string :=
  match fuel with
  | O => s
  | S fuel' =>
      match strip_first ps s with
      | Some s' => strip_leading fuel' ps s'
      | None => s
      end
  end.

(** [s.trim()]: each pattern is at least one byte long, so the length of
    the string is fuel enough. *)
Definition trimStart (s : string) : string :=
  strip_leading (String.length s) whiteSpace s.

Definition trimEnd (s : string) : string :=
  String.rev (strip_leading (String.length s) (map String.rev whiteSpace) (String.rev s)).

Definition trim (s : string) : string := trimEnd (trimStart s).

(** [a < b] and [a > b] on numbers. *)
Definition Qlt_bool (a b : Q) : bool := negb (Qle_bool b a).
Definition Qgt_bool (a b : Q) : bool := Qlt_bool b a.

Record Message := {
  role : string;
  content : string
}.

(** A child of the message list: a message with its type ([user] or
    [neuro]) and text, or the indicator with the id [thinkingMsg]. *)
Inductive Element :=
  | Bubble (type text : string)
  | Thinking.

Record NeuroSputnikApp (W : Type) := {
  ollamaEngine : System W;
  datasetBuilder : DatasetBuilder;
  currentTab : option string;
  conversationHistory : list Message;
  messageInput : string;
  messages : list Element
}.

Arguments ollamaEngine {W} _.
Arguments datasetBuilder {W} _.
Arguments currentTab {W} _.
Arguments conversationHistory {W} _.
Arguments messageInput {W} _.
Arguments messages {W} _.

Definition tabs : list string := ["chat"; "games"; "learn"; "models"].

(** [array.indexOf(x)]; [None] stands for [undefined], which is in no
    array of strings. *)
Fixpoint indexOf_from (i : Z) (x : string) (l : list string) : Z :=
  match l with
  | [] => -1
  | y :: rest => if String.eqb y x then i else indexOf_from (i + 1) x rest
  end.

Definition indexOf (x : option string) (l : list string) : Z :=
  match x with
  | Some x => indexOf_from 0 x l
  | None => -1
  end.

(** [array[i]] *)
Definition at_index (l : list string) (i : Z) : option string :=
  if i <? 0 then None else l !! Z.to_nat i.

(** [switchTab(tabName)]: the new value of [currentTab]. *)
Definition switchTab (tabName : option string) (currentTab : option string) : option string :=
  tabName.

(** [handleSwipe(startX, endX)]: the value of [currentTab] afterwards. *)
Definition handleSwipe (startX endX : Q) (currentTab : option string) : option string :=
  let swipeThreshold := 50%Q in
  let diff := (startX - endX)%Q in
  if Qgt_bool (Qabs diff) swipeThreshold then
    let currentIndex := indexOf currentTab tabs in
    if Qgt_bool diff 0 && (currentIndex <? Z.of_nat (length tabs) - 1) then
      switchTab (at_index tabs (currentIndex + 1)) currentTab
    else if Qlt_bool diff 0 && (0 <? currentIndex) then
      switchTab (at_index tabs (currentIndex - 1)) currentTab
    else currentTab
  else currentTab.

(** The table of [getSmartResponse], in the order [Object.entries]
    yields it. *)
Definition smartResponses : list (string * string) :=
  [ ("привет",
     "Привет! 🎉 Я NeuroSputnik - твой оффлайн AI помощник. Работаю полностью без интернета!");
    ("как дела",
     "Отлично! Готов к общению и обучению. Можешь спрашивать о чём угодно или сыграть в обучающие игры!");
    ("оффлайн",
     "Да! Я работаю полностью оффлайн. Все AI модели и данные хранятся на твоём устройстве.");
    ("обучение",
     "Я постоянно учусь на наших разговорах и играх. Чем больше мы общаемся - тем умнее я становлюсь! 🧠");
    ("игры",
     "Во вкладке " +:+ JSON.dq +:+ "🎮 Игры" +:+ JSON.dq +:+ " найдёшь много обучающих игр для тренировки моего AI!");
    ("память",
     "Сыграй в " +:+ JSON.dq +:+ "Тренировку памяти" +:+ JSON.dq +:+ " чтобы помочь мне улучшить запоминание информации!") ].

Fixpoint first_response (lowerMsg : string) (entries : list (string * string)) : option string :=
  match entries with
  | [] => None
  | (key, response) :: rest =>
      if includes lowerMsg key then Some response else first_response lowerMsg rest
  end.

(** The answer for a message in which no key of the table occurs: the
    template of the source, line by line. *)
Definition interesting_question (message : string) : string :=
  "🤔 " +:+ JSON.dq +:+ message +:+
  JSON.join nl
    [ JSON.dq +:+ " - интересный вопрос!";
      EmptyString;
      "Я работаю в оффлайн режиме, но могу:";
      "• Ответить на основе своих знаний";
      "• Помочь с программированием";
      "• Объяснить сложные темы";
      "• Сыграть с тобой в обучающие игры";
      EmptyString;
      "Попробуй задать вопрос по-другому или зайди в игры для моего обучения! 🚀" ].

Definition getSmartResponse (message : string) : string :=
  let lowerMsg := toLowerCase message in
  match first_response lowerMsg smartResponses with
  | Some response => response
  | None => interesting_question message
  end.

(** [buildPrompt(message, context)]: the template of the source, line
    by line. *)
Definition buildPrompt (message context : string) : string :=
  JSON.join nl
    [ "Ты - NeuroSputnik, умный AI помощник работающий полностью оффлайн на Android устройстве.";
      EmptyString;
      "Контекст предыдущего общения:";
      EmptyString ]
  +:+ context +:+
  JSON.join nl
    [ EmptyString;
      EmptyString;
      "Текущий вопрос пользователя: " ]
  +:+ message +:+
  JSON.join nl
    [ EmptyString;
      EmptyString;
      "Твои возможности:";
      "- Работа без интернета";
      "- Самообучение через взаимодействие";
      "- Игры для тренировки памяти";
      "- Локальная обработка данных";
      EmptyString;
      "Ответь полезно и точно:" ].

(** [getConversationContext()] *)
Definition getConversationContext (history : list Message) : string :=
  JSON.join nl (map (fun msg => role msg +:+ ": " +:+ content msg) (slice_from (-3) history)).

(** [saveToHistory(userMessage, aiResponse)]: the history afterwards. *)
Definition saveToHistory (userMessage aiResponse : string) (history : list Message)
    : list Message :=
  let history := (history ++ [ {| role := "user"; content := userMessage |};
                               {| role := "assistant"; content := aiResponse |} ])%list in
  if (20 <? length history)%nat then slice_from (-20) history else history.

Definition addMessage (text type : string) (elements : list Element) : list Element :=
  (elements ++ [Bubble type text])%list.

Definition showThinkingIndicator (elements : list Element) : list Element :=
  (elements ++ [Thinking])%list.

(** [removeThinkingIndicator(id)]: [getElementById] finds the first
    element with the id, if there is one. *)
Fixpoint removeThinkingIndicator (elements : list Element) : list Element :=
  match elements with
  | [] => []
  | Thinking :: rest => rest
  | element :: rest => element :: removeThinkingIndicator rest
  end.

Definition NotEnoughData : string :=
  "❌ Недостаточно данных для обучения. Сначала пообщайся или поиграй!".
Definition TrainingDone : string := "✅ AI успешно дообучен на новых данных!".
Definition TrainingError : string := "❌ Ошибка при обучении AI".

Section WithApplication.
Context {W : Type} `{Runtime W} `{Platform}.

(** [async generateAIResponse(message, context)], on the engine of the
    application. *)
Definition generateAIResponse (message context : string) : M W string :=
  let* e := this in
  if negb (no_model e) then
    try_catch
      (let prompt := buildPrompt message context in
       generateResponse prompt
         {| maxTokens := Some 500%Q; temperature := Some 0.7%Q; topP := None |})
      (fun error => ret (getSmartResponse message))
  else ret (getSmartResponse message).

(** [async sendMessage()].  In the [catch] block the argument of
    [addMessage] is a call of [getFallbackResponse], which the class does
    not define: the call throws a [TypeError]. *)
Definition sendMessage (now : Z) (app : NeuroSputnikApp W)
    : Completion unit * NeuroSputnikApp W :=
  let message := trim (messageInput app) in
  if String.eqb message EmptyString then (Returns tt, app)
  else
    let shown := addMessage message "user" (messages app) in
    let shown := showThinkingIndicator shown in
    let context := getConversationContext (conversationHistory app) in
    match generateAIResponse message context (ollamaEngine app) with
    | (Returns response, system) =>
        (Returns tt,
         {| ollamaEngine := system;
            datasetBuilder :=
              recordConversation now message response context (datasetBuilder app);
            currentTab := currentTab app;
            conversationHistory := saveToHistory message response (conversationHistory app);
            messageInput := EmptyString;
            messages := addMessage response "neuro" (removeThinkingIndicator shown) |})
    | (Throws error, system) =>
        (Throws (Error "TypeError: this.getFallbackResponse is not a function"),
         {| ollamaEngine := system;
            datasetBuilder := datasetBuilder app;
            currentTab := currentTab app;
            conversationHistory := conversationHistory app;
            messageInput := EmptyString;
            messages := removeThinkingIndicator shown |})
    | (Hangs, system) =>
        (Hangs,
         {| ollamaEngine := system;
            datasetBuilder := datasetBuilder app;
            currentTab := currentTab app;
            conversationHistory := conversationHistory app;
            messageInput := EmptyString;
            messages := shown |})
    end.

(** [async startTraining()], on the engine of the application: the text
    of the alert it ends with. *)
Definition startTraining (datasetBuilder : DatasetBuilder) : M W string :=
  let trainingData := prepareTrainingData datasetBuilder in
  if (length trainingData =? 0)%nat then ret NotEnoughData
  else
    try_catch
      (let formattedData := formatTrainingData trainingData in
       let* success := trainOnData formattedData 3 in
       if success then ret TrainingDone else throw (Error "Ошибка обучения"))
      (fun error => ret TrainingError).

End WithApplication.

(** ** The service worker

    The cache storage is a list of named caches in the order of their
    creation, a cache a list of responses by URL in the order of their
    insertion; only [GET] requests match or are stored.  Requests carry
    no headers, so that a [Vary] header other than [*] never keeps a
    stored response from matching.  The network is a
    function that answers a request with a response or fails.  The
    handlers run one after the other: the [put] that the fetch handler
    starts without waiting for it is done before the next event. *)

Definition CACHE_NAME : string := "neuro-sputnik-v1.0.0".
Definition RUNTIME_CACHE : string := "runtime-cache".

Definition PRECACHE_URLS : list string :=
  [ "/";
    "/index.html";
    "/manifest.json";
    "/ollama-engine/ollama-web.js";
    "/ollama-engine/engine.js";
    "/games/memory-game.html";
    "/games/quiz-game.html";
    "/games/coding-game.html";
    "/learning/dataset-builder.js";
    "/learning/model-trainer.js";
    "/resources/models/tiny-llama.json";
    "/resources/icons/icon-192.png";
    "/resources/icons/icon-512.png" ].

Record HttpRequest := {
  url : string;
  method : string
}.

Record Response := {
  status : Z;
  headers : list (string * string);
  body : string
}.

Definition Cache : Type := list (string * Response).
Definition CacheStorage : Type := list (string * Cache).
Definition Network : Type := HttpRequest -> option Response.

(** [url.startsWith('http')] *)
Definition startsWith_http (u : string) : bool := String.prefix "http" u.

Fixpoint lookup_url (u : string) (cache : Cache) : option Response :=
  match cache with
  | [] => None
  | (key, response) :: rest => if String.eqb key u then Some response else lookup_url u rest
  end.

(** [cache.match(request)] *)
Definition cache_match (request : HttpRequest) (cache : Cache) : option Response :=
  if String.eqb (method request) "GET" then lookup_url (url request) cache else None.

(** [caches.match(request)]: the first match, the caches taken in the
    order of their creation. *)
Fixpoint caches_match (request : HttpRequest) (storage : CacheStorage) : option Response :=
  match storage with
  | [] => None
  | (_, cache) :: rest =>
      match cache_match request cache with
      | Some response => Some response
      | None => caches_match request rest
      end
  end.

Definition has_cache (name : string) (storage : CacheStorage) : bool :=
  existsb (fun named => String.eqb (fst named) name) storage.

(** [caches.open(name)] creates the cache when there is none. *)
Definition caches_open (name : string) (storage : CacheStorage) : CacheStorage :=
  if has_cache name storage then storage else (storage ++ [(name, [])])%list.

(** [caches.delete(name)] *)
Definition caches_delete (name : string) (storage : CacheStorage) : CacheStorage :=
  List.filter (fun named => negb (String.eqb (fst named) name)) storage.

(** A response with the header [Vary: *]. *)
Definition varies_on_everything (response : Response) : bool :=
  existsb (fun header => String.eqb (toLowerCase (fst header)) "vary"
                         && includes (snd header) "*")
          (headers response).

(** [cache.put(request, response)] replaces the entry of the URL; it
    rejects, and stores nothing, unless the method is [GET], the scheme
    is [http] or [https], the status is not 206 and the response has no
    header [Vary: *]. *)
Definition storable (request : HttpRequest) (response : Response) : bool :=
  String.eqb (method request) "GET" && startsWith_http (url request)
  && negb (status response =? 206) && negb (varies_on_everything response).

Definition cache_put (request : HttpRequest) (response : Response) (cache : Cache) : Cache :=
  if storable request response then
    (List.filter (fun entry => negb (String.eqb (fst entry) (url request))) cache
       ++ [(url request, response)])%list
  else cache.

(** An operation on the cache of a name. *)
Definition in_cache (name : string) (f : Cache -> Cache) (storage : CacheStorage)
    : CacheStorage :=
  map (fun named => if String.eqb (fst named) name then (fst named, f (snd named)) else named)
      storage.

(** The [activate] handler: every cache but the two of this version is
    deleted. *)
Definition on_activate (storage : CacheStorage) : CacheStorage :=
  fold_left
    (fun storage cacheName =>
       if negb (String.eqb cacheName CACHE_NAME) && negb (String.eqb cacheName RUNTIME_CACHE)
       then caches_delete cacheName storage
       else storage)
    (map fst storage) storage.

(** The response of the fetch handler when the network fails. *)
Definition offline_response : Response :=
  {| status := 200;
     headers := [("Content-Type", "application/json")];
     body :=
       JSON.object [ ("error", Some (JSON.quote "Оффлайн режим"));
                     ("message", Some (JSON.quote "Приложение работает без интернета")) ] |}.

(** The [fetch] handler: [None] when the handler returns without
    [respondWith], which leaves the request to the browser; otherwise the
    response and the storage afterwards. *)
Definition on_fetch (network : Network) (request : HttpRequest) (storage : CacheStorage)
    : option (Response * CacheStorage) :=
  if negb (startsWith_http (url request)) then None
  else
    match caches_match request storage with
    | Some cachedResponse => Some (cachedResponse, storage)
    | None =>
        let storage := caches_open RUNTIME_CACHE storage in
        match network request with
        | Some response =>
            if status response =? 200
            then Some (response, in_cache RUNTIME_CACHE (cache_put request response) storage)
            else Some (response, storage)
        | None => Some (offline_response, storage)
        end
    end.

(** [cache.addAll(urls)] fetches every URL, resolved against the origin
    of the worker, and stores the responses only when every one of them
    arrived with a status from 200 to 299 other than 206 and without a
    header [Vary: *]. *)
Definition ok_to_add (response : Response) : bool :=
  (200 <=? status response) && (status response <=? 299)
  && negb (status response =? 206) && negb (varies_on_everything response).

Definition addAll (origin : string) (network : Network) (urls : list string) (cache : Cache)
    : option Cache :=
  let requests := map (fun path => {| url := origin +:+ path; method := "GET" |}) urls in
  let fetched := map (fun request => (request, network request)) requests in
  if forallb (fun pair => match snd pair with
                          | Some response =>
                              ok_to_add response && startsWith_http (url (fst pair))
                          | None => false
                          end) fetched
  then Some (fold_left (fun cache pair => match snd pair with
                                          | Some response => cache_put (fst pair) response cache
                                          | None => cache
                                          end) fetched cache)
  else None.

(** The cache of a name, empty when there is none. *)
Definition cache_named (name : string) (storage : CacheStorage) : Cache :=
  match List.find (fun named => String.eqb (fst named) name) storage with
  | Some named => snd named
  | None => []
  end.

(** The [install] handler: whether the installation succeeded, in which
    case [skipWaiting] is called, and the storage afterwards. *)
Definition on_install (origin : string) (network : Network) (storage : CacheStorage)
    : bool * CacheStorage :=
  let storage := caches_open CACHE_NAME storage in
  match addAll origin network PRECACHE_URLS (cache_named CACHE_NAME storage) with
  | Some cache => (true, in_cache CACHE_NAME (fun _ => cache) storage)
  | None => (false, storage)
  end.

(** ** The design document's formulas

    Two definitions that follow the words of the design document, not
    the code; the code is compared with them below. *)

Definition clamp (lo hi x : Q) : Q := Qmax lo (Qmin x hi).

(** The weight of a conversation: start at 1.0, times 1.2 when the user
    text is longer than 50, times 1.5 when the topic is programming,
    science or technical, times 0.7 when the sentiment is negative, then
    clamped to the interval from 0 to 2. *)
Definition weight_per_spec (userText : string) : Q :=
  let w := 1.0%Q in
  let w := if (50 <? js_length userText)%nat then (w * 1.2)%Q else w in
  let w :=
    match analyzeTopic userText with
    | programming | science | technical => (w * 1.5)%Q
    | _ => w
    end in
  let w :=
    match analyzeSentiment userText with
    | negative => (w * 0.7)%Q
    | _ => w
    end in
  clamp 0 2 w.

(** The improvement rate: the slope between the first and the last of the
    five most recent accuracies, zero when there are fewer than two. *)
Definition slope_of_recent (accuracies : list Q) : Q :=
  let recent := drop (length accuracies - 5) accuracies in
  match recent with
  | first :: _ :: _ =>
      ((default 0 (last recent) - first) / inject_Z (Z.of_nat (length recent) - 1))%Q
  | _ => 0%Q
  end.

(** ** Sample data for the closed examples *)

Definition sample_conversation (now : Z) : Conversation :=
  new_conversation now "привет" "Привет!" "".

Definition two_conversations : DatasetBuilder :=
  set_conversations [sample_conversation 1; sample_conversation 2] new_DatasetBuilder.

(** A message of sixty characters about setting up a computer. *)
Definition technical_message : string :=
  "Помоги мне настроить компьютер для работы с большими файлами".

Definition half_right : Performance :=
  {| perf_accuracy := Some 50%Q;
     perf_speed := Some 40%Q;
     perf_consistency := Some 30%Q;
     focusTime := Some 45%Q |}.

Definition performance_of (accuracy : Q) : Performance :=
  {| perf_accuracy := Some accuracy;
     perf_speed := None;
     perf_consistency := None;
     focusTime := None |}.

(** A conversation and two sessions that each report an accuracy of one. *)
Definition unit_accuracies : DatasetBuilder :=
  recordGameData (H := integerToString) 3 "quiz" (performance_of 1) JsNull "победа"
    (recordGameData (H := integerToString) 2 "quiz" (performance_of 1) JsNull "победа"
       (recordConversation (H := integerToString) 1 technical_message "Готово" ""
          new_DatasetBuilder)).

(** Five sessions with accuracies 10, 20, 30, 40 and 50, recorded one
    after the other in a new store. *)
Definition five_sessions : DatasetBuilder :=
  fold_left
    (fun b '(now, accuracy) =>
       recordGameData (H := integerToString) now "memory" (performance_of accuracy)
                      (JsArray []) "победа" b)
    [(1, 10%Q); (2, 20%Q); (3, 30%Q); (4, 40%Q); (5, 50%Q)]
    new_DatasetBuilder.

(** A store with a conversation, a session and a preference. *)
Definition small_store : DatasetBuilder :=
  {| conversations := [sample_conversation 1];
     gameData := gameData five_sessions;
     userPreferences := JsObject [("theme", JsString "dark")];
     learningSessions := [];
     maxStorage := 50 * 1024 * 1024 |}.

(** ** Sequences of recording calls *)

Inductive Recording :=
  | Conversed (now : Z) (userMessage aiResponse context : string)
  | Played (now : Z) (gameType : string) (p : Performance) (d : JsValue) (outcome : string).

Section Recordings.
Context `{Platform}.

Definition record (r : Recording) (b : DatasetBuilder) : DatasetBuilder :=
  match r with
  | Conversed now u a c => recordConversation now u a c b
  | Played now g p d o => recordGameData now g p d o b
  end.

Definition record_all (rs : list Recording) (b : DatasetBuilder) : DatasetBuilder :=
  fold_left (fun b r => record r b) rs b.

(** The store after the insert of a call and before its capacity check. *)
Definition pushed (r : Recording) (b : DatasetBuilder) : DatasetBuilder :=
  match r with
  | Conversed now u a c =>
      set_conversations (conversations b ++ [new_conversation now u a c]) b
  | Played now g p d o =>
      set_gameData (gameData b ++ [new_gameSession now g p d o b]) b
  end.

(** The record of the call serializes to no more bytes than the oldest
    record of the collection it joins. *)
Definition no_larger_than_oldest (r : Recording) (b : DatasetBuilder) : bool :=
  match r with
  | Conversed now u a c =>
      match conversations b with
      | oldest :: _ =>
          (String.length (stringify_conversation (new_conversation now u a c))
           <=? String.length (stringify_conversation oldest))%nat
      | [] => false
      end
  | Played now g p d o =>
      match gameData b with
      | oldest :: _ =>
          (String.length (stringify_game (new_gameSession now g p d o b))
           <=? String.length (stringify_game oldest))%nat
      | [] => false
      end
  end.

Fixpoint each_no_larger_than_oldest (rs : list Recording) (b : DatasetBuilder) : bool :=
  match rs with
  | [] => true
  | r :: rest => no_larger_than_oldest r b && each_no_larger_than_oldest rest (record r b)
  end.

End Recordings.

Fixpoint replicate_char (n : nat) (c : ascii) : string :=
  match n with
  | O => EmptyString
  | S n' => String c (replicate_char n' c)
  end.

(** A message of fifty mebibytes and one byte. *)
Definition huge_message : string :=
  replicate_char (Z.to_nat (50 * 1024 * 1024 + 1)) (ascii_of_nat 97).

Definition one_conversation : DatasetBuilder :=
  set_conversations [sample_conversation 1] new_DatasetBuilder.

(** A store with one conversation and a ceiling of 600 bytes. *)
Definition tight_store : DatasetBuilder :=
  {| conversations := [sample_conversation 1];
     gameData := [];
     userPreferences := JsObject [];
     learningSessions := [];
     maxStorage := 600 |}.

Definition three_greetings : list Recording :=
  [ Conversed 2 "привет" "Привет!" "";
    Conversed 3 "привет" "Привет!" "";
    Conversed 4 "привет" "Привет!" "" ].

(** ** Notions used in the statements about the engine *)

(** The engine after [loadModel] has accepted a model. *)
Definition with_model (modelName : string) (len : Z) (e : OllamaWebEngine) : OllamaWebEngine :=
  {| isInitialized := isInitialized e;
     isRunning := isRunning e;
     currentModel := Some modelName;
     models := <[modelName := {| loaded := true; model_size := len |}]> (models e);
     memoryLimit := memoryLimit e |}.

(** A computation that leaves the fields of the engine as they are. *)
Definition keeps_engine {W A} (m : M W A) : Prop :=
  forall s, engine (snd (m s)) = engine s.

(** A model is never current in an engine that is not initialized. *)
Definition coherent (e : OllamaWebEngine) : Prop :=
  isInitialized e = false -> currentModel e = None.

(** A call that did not succeed: it threw, returned [false] or hung. *)
Definition failed (r : Completion Reply) : Prop :=
  match r with
  | Returns (Flag true) | Returns (Text _) => False
  | _ => True
  end.

Definition default_options : GenerateOptions :=
  {| maxTokens := None; temperature := None; topP := None |}.

(** A runtime with 64 bytes of memory that accepts a model and answers
    every prompt with the null pointer. *)
Definition mute_world : Script :=
  {| next_free := 16;
     cells := repeat x00 64;
     load_status := 0;
     response_ptr := 0;
     train_status := 0;
     store_fails := false |}.

(** A runtime that rejects every model with status 7 and every training
    run with status 3. *)
Definition refusing_world : Script :=
  {| next_free := 16;
     cells := repeat x00 64;
     load_status := 7;
     response_ptr := 0;
     train_status := 3;
     store_fails := true |}.

Definition tiny_model : list byte := [x01; x02; x03].

(** The engine of [mute_world] after [initialize] and a successful
    [loadModel], with an empty trace. *)
Definition loaded_system : System Script :=
  let s := run (H := scripted) (H0 := integerToString)
               [DoInitialize; DoLoadModel "tiny-llama" tiny_model] (boot mute_world) in
  {| engine := engine s; world := world s; trace := [] |}.

(** The same engine facing [refusing_world]. *)
Definition loaded_system_refused : System Script :=
  {| engine := engine loaded_system; world := refusing_world; trace := [] |}.

(** An initialized engine without a model, facing [refusing_world]. *)
Definition ready_system_refused : System Script :=
  run (H := scripted) (H0 := integerToString) [DoInitialize] (boot refusing_world).

(** A runtime whose memory holds a greeting at offset 4, terminated by a
    zero byte, and which answers every prompt with that offset; and an
    engine with a model facing it. *)
Definition speaking_world : Script :=
  {| next_free := 16;
     cells := (repeat x01 4 ++ list_byte_of_string "Привет!" ++ repeat x00 64)%list;
     load_status := 0;
     response_ptr := 4;
     train_status := 0;
     store_fails := false |}.

Definition speaking_system : System Script :=
  {| engine := engine loaded_system; world := speaking_world; trace := [] |}.

(** ** Further notions for the statements about the builder *)

(** How many words of a list occur in a text; a word that occurs several
    times counts once. *)
Definition count_included (lowerMessage : string) (words : list string) : nat :=
  length (List.filter (includes lowerMessage) words).

(** The conversations that the calls of a sequence build, in order. *)
Definition conversed (rs : list Recording) : list Conversation :=
  omap (fun r => match r with
                 | Conversed now u a c => Some (new_conversation now u a c)
                 | Played _ _ _ _ _ => None
                 end) rs.

(** A message that names an algorithm and studying. *)
Definition study_message : string := "Изучаю АЛГОРИТМ сортировки".

(** A message with two positive words and one negative word. *)
Definition mixed_message : string := "Спасибо, отличный ответ, хотя начало было плохое".

(** A performance that reports only a focus time. *)
Definition focused_for (seconds : Q) : Performance :=
  {| perf_accuracy := None;
     perf_speed := None;
     perf_consistency := None;
     focusTime := Some seconds |}.

(** ** Further notions for the statements about the engine *)

(** The foreign calls a computation adds to the trace. *)
Definition new_events {W A} (m : M W A) (s : System W) : list Event :=
  drop (length (trace s)) (trace (snd (m s))).

(** The registry agrees with the current model: the current model is
    registered, no model is registered while none is current, and every
    registered model is marked as loaded with a size that is a length. *)
Definition registry_agrees (e : OllamaWebEngine) : Prop :=
  match currentModel e with
  | Some name => is_Some (models e !! name)
  | None => models e = ∅
  end /\
  forall name d, models e !! name = Some d -> loaded d = true /\ 0 <= model_size d.


(** ** Further notions for the statements about the application *)

(** A history that consists of whole exchanges, a message of the user
    followed by the answer. *)
Definition exchange (pair : string * string) : list Message :=
  [ {| role := "user"; content := fst pair |};
    {| role := "assistant"; content := snd pair |} ].

Definition paired (history : list Message) : Prop :=
  exists exchanges, history = concat (map exchange exchanges).

(** The application around [loaded_system], whose runtime answers every
    prompt with the null pointer, with a greeting typed into the field. *)
Definition greeting_app : NeuroSputnikApp Script :=
  {| ollamaEngine := loaded_system;
     datasetBuilder := new_DatasetBuilder;
     currentTab := Some "chat";
     conversationHistory := [];
     messageInput := "  Привет!  ";
     messages := [] |}.


(** An initialized engine. *)
Definition initialized_engine : OllamaWebEngine := engine loaded_system.


(** ** Further notions for the statements about the service worker *)

(** The caches that [activate] keeps. *)
Definition kept (name : string) : bool :=
  String.eqb name CACHE_NAME || String.eqb name RUNTIME_CACHE.

Definition get (u : string) : HttpRequest := {| url := u; method := "GET" |}.

Definition page (text : string) : Response :=
  {| status := 200; headers := [("Content-Type", "text/html")]; body := text |}.

(** A network that answers every request with the same page, and one
    that always fails. *)
Definition online : Network := fun _ => Some (page "<html></html>").
Definition offline : Network := fun _ => None.

(** A storage left by an older version of the worker. *)
Definition old_storage : CacheStorage :=
  [ ("neuro-sputnik-v0.9.0", [("https://app.example/old.js", page "old")]);
    ("runtime-cache", []) ].

(** * Properties *)

(** ** Slices *)

Lemma slice_from_zero {A} (l : list A) : slice_from 0 l = l.
Proof.
  unfold slice_from. simpl.
  replace (Z.min 0 (Z.of_nat (length l))) with 0 by lia.
  reflexivity.
Qed.

Lemma slice_from_negative {A} (k : Z) (l : list A) :
  0 < k -> slice_from (- k) l = drop (length l - Z.to_nat k) l.
Proof.
  intros Hk. unfold slice_from.
  destruct (Z.ltb_spec (- k) 0) as [_ | Hge]; [| lia].
  f_equal. lia.
Qed.

Lemma floor_80_percent_bounds (n : nat) :
  0 <= floor_80_percent n <= Z.of_nat n.
Proof. unfold floor_80_percent. split; [apply Z.div_pos | apply Z.div_le_upper_bound]; lia. Qed.

Lemma floor_80_percent_zero (n : nat) :
  floor_80_percent n = 0 <-> (n <= 1)%nat.
Proof.
  unfold floor_80_percent. split; intros Hn.
  - assert (4 * Z.of_nat n < 5) by (apply Z.div_small_iff in Hn; lia). lia.
  - apply Z.div_small. lia.
Qed.

(** The integer formula is the floor of the binary64 product, checked
    here for every length up to 4096 and for a few large ones. *)
Remark floor_80_percent_in_binary64 :
  forallb (fun n => binary64_floor_80_percent_is (Z.of_nat n) (floor_80_percent n))
          (seq 0 4097) = true /\
  forallb (fun n => binary64_floor_80_percent_is n (4 * n / 5))
          [65535; 1000000; 16777215; 4294967295] = true.
Proof. split; vm_compute; reflexivity. Qed.

(** What one slice of [cleanupOldData] keeps: everything of a collection
    of at most one record, the newest [floor_80_percent n] otherwise. *)
Lemma kept_by_cleanup {A} (l : list A) :
  slice_from (- floor_80_percent (length l)) l =
  if (length l <=? 1)%nat then l
  else drop (length l - Z.to_nat (floor_80_percent (length l))) l.
Proof.
  destruct (Nat.leb_spec (length l) 1) as [Hle | Hgt].
  - apply floor_80_percent_zero in Hle. rewrite Hle. apply slice_from_zero.
  - apply slice_from_negative.
    pose proof (floor_80_percent_bounds (length l)).
    pose proof (floor_80_percent_zero (length l)). lia.
Qed.

Lemma conversations_cleanupOldData (b : DatasetBuilder) :
  conversations (cleanupOldData b) =
  slice_from (- floor_80_percent (length (conversations b))) (conversations b).
Proof. reflexivity. Qed.

Lemma gameData_cleanupOldData (b : DatasetBuilder) :
  gameData (cleanupOldData b) =
  slice_from (- floor_80_percent (length (gameData b))) (gameData b).
Proof. reflexivity. Qed.

Lemma maxStorage_cleanupOldData (b : DatasetBuilder) :
  maxStorage (cleanupOldData b) = maxStorage b.
Proof. reflexivity. Qed.

(** The newest record of a collection survives every eviction. *)
Lemma last_kept_by_cleanup {A} (l : list A) :
  last (slice_from (- floor_80_percent (length l)) l) = last l.
Proof.
  rewrite kept_by_cleanup.
  destruct (Nat.leb_spec (length l) 1) as [Hle | Hgt]; [reflexivity |].
  pose proof (floor_80_percent_bounds (length l)) as Hb.
  pose proof (floor_80_percent_zero (length l)) as Hz.
  rewrite !last_lookup, lookup_drop, length_drop. f_equal. lia.
Qed.

(** ** Eviction *)

(** C6, as the code has it.  When [cleanupOldData] runs on a collection of
    [n] records, [n] other than one, exactly the newest [floor (0.8 n)]
    records survive, in their insertion order (they are the tail of the
    collection); the number removed is [n - floor (0.8 n)], which is a
    fifth of [n] rounded up.  This holds for the conversations and for the
    game sessions. *)
Theorem cleanupOldData_keeps_newest (b : DatasetBuilder) :
  (length (conversations b) <> 1%nat ->
   let n := length (conversations b) in
   let kept := conversations (cleanupOldData b) in
   kept = drop (n - Z.to_nat (floor_80_percent n)) (conversations b) /\
   Z.of_nat (length kept) = floor_80_percent n /\
   Z.of_nat n - Z.of_nat (length kept) = (Z.of_nat n + 4) / 5) /\
  (length (gameData b) <> 1%nat ->
   let n := length (gameData b) in
   let kept := gameData (cleanupOldData b) in
   kept = drop (n - Z.to_nat (floor_80_percent n)) (gameData b) /\
   Z.of_nat (length kept) = floor_80_percent n /\
   Z.of_nat n - Z.of_nat (length kept) = (Z.of_nat n + 4) / 5).
Proof.
  assert (Hkept : forall A (l : list A), length l <> 1%nat ->
            let n := length l in
            let kept := slice_from (- floor_80_percent n) l in
            kept = drop (n - Z.to_nat (floor_80_percent n)) l /\
            Z.of_nat (length kept) = floor_80_percent n /\
            Z.of_nat n - Z.of_nat (length kept) = (Z.of_nat n + 4) / 5).
  { intros A l Hone n kept. subst kept n.
    pose proof (floor_80_percent_bounds (length l)) as Hb.
    rewrite kept_by_cleanup.
    destruct (Nat.leb_spec (length l) 1) as [Hle | Hgt].
    - assert (Hnil : length l = 0%nat) by lia.
      destruct l; [| discriminate]. simpl. unfold floor_80_percent. simpl.
      repeat split; reflexivity.
    - split; [reflexivity |]. rewrite length_drop.
      unfold floor_80_percent in *. split; Z.div_mod_to_equations; lia. }
  split; intros Hone.
  - rewrite conversations_cleanupOldData. apply Hkept, Hone.
  - rewrite gameData_cleanupOldData. apply Hkept, Hone.
Qed.

(** The theorem at a store of two conversations and no game session. *)
Lemma cleanupOldData_keeps_newest_of_two :
  conversations (cleanupOldData two_conversations) = [sample_conversation 2] /\
  gameData (cleanupOldData two_conversations) = [].
Proof.
  destruct (cleanupOldData_keeps_newest two_conversations) as [Hc Hg].
  destruct Hc as [Hc _]; [discriminate |].
  destruct Hg as [Hg _]; [discriminate |].
  split; [exact Hc | exact Hg].
Defined.

(** C6 as stated fails: of two records the eviction removes one, while a
    fifth of two, rounded down, is none. *)
Lemma eviction_of_two_removes_one :
  let b := two_conversations in
  conversations (cleanupOldData b) = [sample_conversation 2] /\
  ~ (Z.of_nat (length (conversations b))
     - Z.of_nat (length (conversations (cleanupOldData b)))
     = Z.of_nat (length (conversations b)) / 5).
Proof. split; [reflexivity | discriminate]. Qed.

(** A collection of a single record is not evicted at all: the keep count
    is zero, and [slice(-0)] is the whole array. *)
Remark cleanupOldData_keeps_single (c : Conversation) (b : DatasetBuilder) :
  conversations b = [c] -> conversations (cleanupOldData b) = [c].
Proof. intros Hc. rewrite conversations_cleanupOldData, Hc. reflexivity. Qed.

(** ** Recording *)

Section Recording.
Context `{Platform}.

Lemma last_checkStorageLimit_conversations (b : DatasetBuilder) :
  last (conversations (checkStorageLimit b)) = last (conversations b).
Proof.
  unfold checkStorageLimit. destruct (maxStorage b <? getTotalDataSize b); [| reflexivity].
  rewrite conversations_cleanupOldData. apply last_kept_by_cleanup.
Qed.

Lemma last_checkStorageLimit_gameData (b : DatasetBuilder) :
  last (gameData (checkStorageLimit b)) = last (gameData b).
Proof.
  unfold checkStorageLimit. destruct (maxStorage b <? getTotalDataSize b); [| reflexivity].
  rewrite gameData_cleanupOldData. apply last_kept_by_cleanup.
Qed.

(** The record just built is the newest conversation of the store, also
    when the insert triggers an eviction. *)
Lemma recordConversation_last now u r c (b : DatasetBuilder) :
  last (conversations (recordConversation now u r c b)) = Some (new_conversation now u r c).
Proof.
  unfold recordConversation. rewrite last_checkStorageLimit_conversations.
  simpl. apply last_snoc.
Qed.

Lemma recordGameData_last now gameType p d o (b : DatasetBuilder) :
  last (gameData (recordGameData now gameType p d o b)) =
  Some (new_gameSession now gameType p d o b).
Proof.
  unfold recordGameData. rewrite last_checkStorageLimit_gameData.
  simpl. apply last_snoc.
Qed.

End Recording.

(** ** Weights *)

(** The eight values [calculateExampleWeight] can take. *)
Lemma calculateExampleWeight_cases (conv : Conversation) :
  let long := 50 <? message_length (metadata conv) in
  let valued := existsb (Topic_eqb (topic (metadata conv))) [programming; science; technical] in
  let unhappy := match sentiment (metadata conv) with negative => true | _ => false end in
  (calculateExampleWeight conv ==
   (if long then 1.2 else 1) * (if valued then 1.5 else 1) * (if unhappy then 0.7 else 1))%Q.
Proof.
  unfold calculateExampleWeight.
  destruct (50 <? message_length (metadata conv));
    destruct (existsb _ _); destruct (sentiment (metadata conv)); reflexivity.
Qed.

(** A conversation's weight is at least 0.7 and at most 1.8, whatever the
    record holds: the cap at 2.0 never applies. *)
Lemma calculateExampleWeight_range (conv : Conversation) :
  (0.7 <= calculateExampleWeight conv <= 1.8)%Q.
Proof.
  rewrite calculateExampleWeight_cases.
  destruct (50 <? message_length (metadata conv));
    destruct (existsb _ _); destruct (sentiment (metadata conv));
    split; discriminate.
Qed.

Lemma weight_of_new_conversation now u r c :
  (calculateExampleWeight (new_conversation now u r c) == weight_per_spec u)%Q.
Proof.
  unfold calculateExampleWeight, weight_per_spec, new_conversation. simpl.
  destruct (Z.ltb_spec 50 (Z.of_nat (js_length u))) as [Hz | Hz];
    destruct (Nat.ltb_spec 50 (js_length u)) as [Hn | Hn]; try lia;
    destruct (analyzeTopic u); destruct (analyzeSentiment u); reflexivity.
Qed.



(** In binary64, the arithmetic of the code, the same product is the
    double just below 1.8. *)
#[warnings="-inexact-float"]
Remark product_of_factors_in_binary64 :
  (1.0 * 1.2 * 1.5 = 1.7999999999999998)%float.
Proof. reflexivity. Qed.

(** The weight of a session's example is the accuracy the game reported,
    as it is. *)
Lemma recordGameData_example `{Platform} now gameType p d o (b : DatasetBuilder) :
  exists example,
    example ∈ prepareTrainingData (recordGameData now gameType p d o b) /\
    weight example = or_zero_opt (perf_accuracy p).
Proof.
  exists (game_example (new_gameSession now gameType p d o b)). split; [| reflexivity].
  unfold prepareTrainingData. apply elem_of_app. right.
  apply list_elem_of_fmap. exists (new_gameSession now gameType p d o b).
  split; [reflexivity |]. apply last_Some_elem_of, recordGameData_last.
Qed.

(** C3, as the code has it.  In the batch of [prepareTrainingData] the
    examples of the conversations come first and each weighs between 0
    and 2 (between 0.7 and 1.8); the examples of the game sessions follow
    and each weighs the accuracy recorded with its session, without a
    cap.  So the whole batch lies between 0 and 2 when the recorded
    accuracies do. *)
Theorem batch_weights `{Platform} (b : DatasetBuilder) :
  prepareTrainingData b =
    ((conversation_example <$> conversations b) ++ (game_example <$> gameData b))%list /\
  Forall (fun example => 0 <= weight example <= 2)%Q
         (conversation_example <$> conversations b) /\
  weight <$> (game_example <$> gameData b) =
    (fun session => accuracy (learning_metrics session)) <$> gameData b /\
  (Forall (fun session => 0 <= accuracy (learning_metrics session) <= 2)%Q (gameData b) ->
   Forall (fun example => 0 <= weight example <= 2)%Q (prepareTrainingData b)).
Proof.
  assert (Hconv : Forall (fun example => 0 <= weight example <= 2)%Q
                         (conversation_example <$> conversations b)).
  { apply Forall_fmap, Forall_forall. intros conv _. simpl.
    pose proof (calculateExampleWeight_range conv) as [Hlo Hhi].
    split; [apply Qle_trans with (2 := Hlo) | apply Qle_trans with (1 := Hhi)];
      discriminate. }
  split; [reflexivity |]. split; [exact Hconv |]. split.
  - rewrite <- list_fmap_compose. reflexivity.
  - intros Hgames. unfold prepareTrainingData. apply Forall_app. split; [exact Hconv |].
    apply Forall_fmap. exact Hgames.
Qed.

(** The theorem on a store whose sessions all report an accuracy of one:
    every weight of its batch is between 0 and 2. *)
Lemma batch_weights_of_unit_accuracies :
  Forall (fun example => 0 <= weight example <= 2)%Q
         (prepareTrainingData (H := integerToString) unit_accuracies).
Proof.
  apply (batch_weights (H := integerToString) unit_accuracies).
  vm_compute.
  constructor; [split; discriminate |].
  constructor; [split; discriminate |].
  constructor.
Defined.

(** C3 as stated fails on a session with accuracy 50 (percent), recorded
    in a new store: the batch is the one example of that session, and its
    weight is 50, above 2. *)
Lemma session_weight_exceeds_cap :
  let b := recordGameData (H := integerToString) 1700000000000 "memory" half_right JsNull
             "победа" new_DatasetBuilder in
  weight <$> prepareTrainingData (H := integerToString) b = [50%Q] /\
  ~ (50 <= 2)%Q.
Proof. split; [reflexivity | unfold Qle; simpl; lia]. Qed.

(** ** Improvement rate *)

Lemma or_zero_eq (x : Q) : (or_zero x == x)%Q.
Proof.
  unfold or_zero. destruct (Qeq_bool x 0) eqn:Hx; [| reflexivity].
  symmetry. apply Qeq_bool_eq, Hx.
Qed.

(** The last entry, read by index from the accuracies the code maps with
    [|| 0], is the last of the plain accuracies. *)
Lemma nth_last_or_zero (l : list Q) :
  (nth (length (map or_zero l) - 1) (map or_zero l) 0 == default 0 (last l))%Q.
Proof.
  induction l as [| x l IH]; [reflexivity |].
  destruct l as [| y l].
  - simpl. apply or_zero_eq.
  - change (last (x :: y :: l)) with (last (y :: l)). rewrite <- IH.
    simpl. rewrite !Nat.sub_0_r. reflexivity.
Qed.

Lemma calculateImprovementRate_slope (b : DatasetBuilder) (p : Performance) :
  (calculateImprovementRate b p ==
   slope_of_recent (map (fun session => accuracy (learning_metrics session)) (gameData b)))%Q.
Proof.
  unfold calculateImprovementRate, slope_of_recent.
  rewrite (slice_from_negative 5) by lia.
  change (Z.to_nat 5) with 5%nat.
  rewrite (length_map _ (gameData b)).
  change (drop (length (gameData b) - 5)
            (map (fun session => accuracy (learning_metrics session)) (gameData b)))
    with (drop (length (gameData b) - 5)
            ((fun session => accuracy (learning_metrics session)) <$> (gameData b))).
  rewrite <- fmap_drop.
  generalize (drop (length (gameData b) - 5) (gameData b)). intros recent.
  change ((fun session => accuracy (learning_metrics session)) <$> recent)
    with (map (fun session => accuracy (learning_metrics session)) recent).
  rewrite <- (map_map (fun session => accuracy (learning_metrics session)) or_zero recent).
  rewrite (length_map or_zero).
  rewrite <- (length_map (fun session => accuracy (learning_metrics session)) recent) at 1.
  generalize (map (fun session => accuracy (learning_metrics session)) recent).
  intros accuracies.
  destruct accuracies as [| first [| second rest]]; [reflexivity | reflexivity |].
  change (length (first :: second :: rest) <? 2)%nat with false. cbv iota.
  rewrite <- (length_map or_zero) at 1.
  rewrite nth_last_or_zero.
  change (nth 0 (map or_zero (first :: second :: rest)) 0%Q) with (or_zero first).
  rewrite or_zero_eq. reflexivity.
Qed.

(** C9.  The session that [recordGameData] stores is the newest of the
    store, and its improvement rate is the slope between the first and
    the last accuracy of the five most recent sessions recorded before it:
    their difference over their number less one, and zero when fewer than
    two sessions precede it.  After sessions whose five most recent
    accuracies are 10, 20, 30, 40 and 50 the rate is 10. *)
Theorem recordGameData_improvement_rate `{Platform} now gameType p d o (b : DatasetBuilder) :
  let prior := map (fun session => accuracy (learning_metrics session)) (gameData b) in
  let stored := new_gameSession now gameType p d o b in
  last (gameData (recordGameData now gameType p d o b)) = Some stored /\
  (improvement_rate (learning_metrics stored) == slope_of_recent prior)%Q /\
  ((length prior < 2)%nat -> (improvement_rate (learning_metrics stored) == 0)%Q) /\
  (forall older : list Q, prior = (older ++ [10; 20; 30; 40; 50]%Q)%list ->
     (improvement_rate (learning_metrics stored) == (50 - 10) / 4)%Q /\
     (improvement_rate (learning_metrics stored) == 10)%Q).
Proof.
  intros prior stored.
  assert (Hrate : (improvement_rate (learning_metrics stored) == slope_of_recent prior)%Q)
    by apply calculateImprovementRate_slope.
  split; [apply recordGameData_last |].
  split; [exact Hrate |].
  split.
  - intros Hfew. rewrite Hrate. unfold slope_of_recent.
    destruct prior as [| a [| a' rest]]; [reflexivity | reflexivity | simpl in Hfew; lia].
  - intros older Hprior. rewrite Hrate, Hprior. unfold slope_of_recent.
    rewrite length_app. simpl length.
    replace (length older + 5 - 5)%nat with (length older) by lia.
    rewrite drop_app_length. split; reflexivity.
Qed.

(** The scenario of the design document: a sixth session after
    [five_sessions]. *)
Lemma sixth_session_improves_by_ten :
  map (fun session => accuracy (learning_metrics session)) (gameData five_sessions)
    = [10; 20; 30; 40; 50]%Q /\
  (improvement_rate
     (learning_metrics
        (new_gameSession 6 "memory" (performance_of 70) (JsArray []) "победа" five_sessions))
   == 10)%Q.
Proof.
  split; [reflexivity |].
  apply (recordGameData_improvement_rate (H := integerToString)
           6 "memory" (performance_of 70) (JsArray []) "победа" five_sessions) with (older := []).
  reflexivity.
Defined.

(** ** Snapshots *)


(** An import leaves the ceiling of the store it replaces. *)
Lemma importDataset_keeps_ceiling file (target : DatasetBuilder) value imported :
  importDataset file target = Resolved value imported ->
  maxStorage imported = maxStorage target.
Proof.
  destruct file as [| | importedData]; simpl; try discriminate.
  intros [= _ <-]. reflexivity.
Qed.


(** ** The storage ceiling *)

Lemma length_app_string (a b : string) :
  String.length (a +:+ b) = (String.length a + String.length b)%nat.
Proof. induction a as [| c a IH]; simpl; [reflexivity | rewrite IH; reflexivity]. Qed.

Lemma join_length_snoc (sep x y : string) (l : list string) :
  String.length (JSON.join sep ((y :: l) ++ [x])) =
  (String.length (JSON.join sep (y :: l)) + String.length sep + String.length x)%nat.
Proof.
  revert y. induction l as [| z l IH]; intros y.
  - simpl. rewrite !length_app_string. lia.
  - change (String.length (y +:+ sep +:+ JSON.join sep ((z :: l) ++ [x])) =
            (String.length (y +:+ sep +:+ JSON.join sep (z :: l))
             + String.length sep + String.length x)%nat).
    rewrite !length_app_string, IH. lia.
Qed.

Lemma join_length_tail (sep x : string) (l : list string) :
  (String.length (JSON.join sep l) <= String.length (JSON.join sep (x :: l)))%nat.
Proof.
  destruct l as [| y l]; [simpl; lia |].
  change (JSON.join sep (x :: y :: l)) with (x +:+ sep +:+ JSON.join sep (y :: l)).
  rewrite !length_app_string. lia.
Qed.

Lemma join_length_drop (sep : string) (j : nat) (l : list string) :
  (String.length (JSON.join sep (drop j l)) <= String.length (JSON.join sep l))%nat.
Proof.
  revert l. induction j as [| j IH]; intros l; [rewrite drop_0; lia |].
  destruct l as [| x l]; [simpl; lia |].
  simpl drop. etransitivity; [apply IH | apply join_length_tail].
Qed.

(** Replacing the oldest item by a new one that is no longer, at the other
    end, does not lengthen the joined text. *)
Lemma join_length_rotate (sep oldest x : string) (rest : list string) :
  (String.length x <= String.length oldest)%nat ->
  (String.length (JSON.join sep (rest ++ [x]))
   <= String.length (JSON.join sep (oldest :: rest)))%nat.
Proof.
  intros Hx. destruct rest as [| y rest]; [simpl; lia |].
  rewrite join_length_snoc.
  change (JSON.join sep (oldest :: y :: rest))
    with (oldest +:+ sep +:+ JSON.join sep (y :: rest)).
  rewrite !length_app_string. lia.
Qed.

Lemma slice_from_fmap {A B} (f : A -> B) (start : Z) (l : list A) :
  f <$> slice_from start l = slice_from start (f <$> l).
Proof. unfold slice_from. rewrite fmap_drop, length_fmap. reflexivity. Qed.

(** An eviction never lengthens the joined text of a collection. *)
Lemma join_length_kept (sep : string) (l : list string) :
  (String.length (JSON.join sep (slice_from (- floor_80_percent (length l)) l))
   <= String.length (JSON.join sep l))%nat.
Proof.
  rewrite kept_by_cleanup. destruct (length l <=? 1)%nat; [lia |].
  apply join_length_drop.
Qed.

(** An eviction after a push drops the oldest item, when there was one. *)
Lemma join_length_kept_after_push (sep oldest x : string) (rest : list string) :
  (String.length x <= String.length oldest)%nat ->
  let l := ((oldest :: rest) ++ [x])%list in
  (String.length (JSON.join sep (slice_from (- floor_80_percent (length l)) l))
   <= String.length (JSON.join sep (oldest :: rest)))%nat.
Proof.
  intros Hx l. rewrite kept_by_cleanup.
  assert (Hlen : length l = S (S (length rest))).
  { subst l. rewrite length_app. simpl. lia. }
  destruct (Nat.leb_spec (length l) 1) as [Hle | _]; [lia |].
  pose proof (floor_80_percent_bounds (length l)) as Hb.
  assert (Hlt : floor_80_percent (length l) < Z.of_nat (length l)).
  { unfold floor_80_percent. apply Z.div_lt_upper_bound; lia. }
  destruct (length l - Z.to_nat (floor_80_percent (length l)))%nat as [| j] eqn:Hj; [lia |].
  subst l. simpl drop.
  etransitivity; [apply join_length_drop | apply join_length_rotate, Hx].
Qed.

Section Ceiling.
Context `{Platform}.

(** The serialized size by collection: 34 bytes of envelope, and the two
    arrays' items joined by commas. *)
Lemma getTotalDataSize_eq (b : DatasetBuilder) :
  getTotalDataSize b =
  34 + Z.of_nat (String.length (JSON.join "," (stringify_conversation <$> conversations b)))
     + Z.of_nat (String.length (JSON.join "," (stringify_game <$> gameData b))).
Proof.
  unfold getTotalDataSize, JSON.object, JSON.array.
  cbn [omap list_omap JSON.member JSON.join].
  rewrite !length_app_string.
  change (String.length (JSON.quote "conversations")) with 15%nat.
  change (String.length (JSON.quote "gameData")) with 10%nat.
  simpl String.length.
  change (map stringify_conversation (conversations b))
    with (stringify_conversation <$> conversations b).
  change (map stringify_game (gameData b)) with (stringify_game <$> gameData b).
  lia.
Qed.

Lemma maxStorage_checkStorageLimit (b : DatasetBuilder) :
  maxStorage (checkStorageLimit b) = maxStorage b.
Proof. unfold checkStorageLimit. destruct (maxStorage b <? getTotalDataSize b); reflexivity. Qed.

Lemma record_eq (r : Recording) (b : DatasetBuilder) :
  record r b = checkStorageLimit (pushed r b).
Proof. destruct r; reflexivity. Qed.

Lemma maxStorage_pushed (r : Recording) (b : DatasetBuilder) :
  maxStorage (pushed r b) = maxStorage b.
Proof. destruct r; reflexivity. Qed.

Lemma maxStorage_record (r : Recording) (b : DatasetBuilder) :
  maxStorage (record r b) = maxStorage b.
Proof. rewrite record_eq, maxStorage_checkStorageLimit. apply maxStorage_pushed. Qed.

(** The eviction that follows the insert of a record no larger than the
    oldest of its collection leaves no more bytes than there were before
    the insert. *)
Lemma cleanupOldData_after_push (r : Recording) (b : DatasetBuilder) :
  no_larger_than_oldest r b = true ->
  getTotalDataSize (cleanupOldData (pushed r b)) <= getTotalDataSize b.
Proof.
  intros Hfit. rewrite !getTotalDataSize_eq.
  rewrite conversations_cleanupOldData, gameData_cleanupOldData, !slice_from_fmap.
  unfold no_larger_than_oldest in Hfit.
  destruct r as [now u a c | now g p d o];
    cbn [pushed conversations gameData set_conversations set_gameData].
  - destruct (conversations b) as [| oldest rest] eqn:Hc; [discriminate |].
    apply Nat.leb_le in Hfit.
    pose proof (join_length_kept "," (stringify_game <$> gameData b)) as Hg.
    pose proof (join_length_kept_after_push ","
                  (stringify_conversation oldest)
                  (stringify_conversation (new_conversation now u a c))
                  (stringify_conversation <$> rest) Hfit) as Hk.
    cbv zeta in Hk. rewrite fmap_app.
    change (stringify_conversation <$> oldest :: rest)
      with (stringify_conversation oldest :: (stringify_conversation <$> rest)).
    change (stringify_conversation <$> [new_conversation now u a c])
      with [stringify_conversation (new_conversation now u a c)].
    rewrite length_fmap in Hg.
    rewrite length_app, length_cons, length_fmap in Hk. rewrite length_app, length_cons.
    cbn [length] in Hk |- *. lia.
  - destruct (gameData b) as [| oldest rest] eqn:Hg; [discriminate |].
    apply Nat.leb_le in Hfit.
    pose proof (join_length_kept "," (stringify_conversation <$> conversations b)) as Hc.
    pose proof (join_length_kept_after_push ","
                  (stringify_game oldest)
                  (stringify_game (new_gameSession now g p d o b))
                  (stringify_game <$> rest) Hfit) as Hk.
    cbv zeta in Hk. rewrite fmap_app.
    change (stringify_game <$> oldest :: rest)
      with (stringify_game oldest :: (stringify_game <$> rest)).
    change (stringify_game <$> [new_gameSession now g p d o b])
      with [stringify_game (new_gameSession now g p d o b)].
    rewrite length_fmap in Hc.
    rewrite length_app, length_cons, length_fmap in Hk. rewrite length_app, length_cons.
    cbn [length] in Hk |- *. lia.
Qed.

(** One call keeps the store within its ceiling. *)
Lemma record_within_ceiling (r : Recording) (b : DatasetBuilder) :
  no_larger_than_oldest r b = true ->
  getTotalDataSize b <= maxStorage b ->
  getTotalDataSize (record r b) <= maxStorage (record r b).
Proof.
  intros Hfit Hb. rewrite maxStorage_record, record_eq. unfold checkStorageLimit.
  rewrite maxStorage_pushed.
  destruct (Z.ltb_spec (maxStorage b) (getTotalDataSize (pushed r b))) as [Hover | Hok].
  - pose proof (cleanupOldData_after_push r b Hfit). lia.
  - exact Hok.
Qed.

Lemma each_no_larger_take (k : nat) (rs : list Recording) (b : DatasetBuilder) :
  each_no_larger_than_oldest rs b = true ->
  each_no_larger_than_oldest (take k rs) b = true.
Proof.
  revert k b. induction rs as [| r rs IH]; intros k b Hall; [destruct k; reflexivity |].
  destruct k as [| k]; [reflexivity |].
  simpl in *. apply andb_prop in Hall as [Hr Hrest].
  rewrite Hr. simpl. apply IH, Hrest.
Qed.

Lemma record_all_within_ceiling (rs : list Recording) (b : DatasetBuilder) :
  getTotalDataSize b <= maxStorage b ->
  each_no_larger_than_oldest rs b = true ->
  getTotalDataSize (record_all rs b) <= maxStorage (record_all rs b).
Proof.
  revert b. induction rs as [| r rs IH]; intros b Hb Hall; [exact Hb |].
  cbn [each_no_larger_than_oldest] in Hall. apply andb_prop in Hall as [Hr Hrest].
  change (record_all (r :: rs) b) with (record_all rs (record r b)).
  apply IH; [apply record_within_ceiling; assumption | exact Hrest].
Qed.


End Ceiling.


(** *** A record that is larger than the ceiling *)

Lemma length_escape (c : ascii) : (1 <= String.length (JSON.escape c))%nat.
Proof.
  unfold JSON.escape.
  repeat match goal with
         | |- context [if ?cond then _ else _] => destruct cond
         end; simpl; lia.
Qed.

Lemma length_escape_all (s : string) :
  (String.length s <= String.length (JSON.escape_all s))%nat.
Proof.
  induction s as [| c s IH]; [reflexivity |].
  simpl. rewrite length_app_string. pose proof (length_escape c). lia.
Qed.

Lemma length_quote (s : string) :
  (String.length s <= String.length (JSON.quote s))%nat.
Proof.
  unfold JSON.quote. rewrite !length_app_string.
  pose proof (length_escape_all s). lia.
Qed.

Lemma length_stringify_conversation (c : Conversation) :
  (String.length (user_message c) <= String.length (stringify_conversation c))%nat.
Proof.
  unfold stringify_conversation, JSON.object.
  cbn [omap list_omap JSON.member JSON.join].
  rewrite !length_app_string.
  pose proof (length_quote (user_message c)). lia.
Qed.

Lemma join_length_elem (sep x : string) (l : list string) :
  x ∈ l -> (String.length x <= String.length (JSON.join sep l))%nat.
Proof.
  induction l as [| y l IH]; intros Hx; [inversion Hx |].
  apply elem_of_cons in Hx as [-> | Hx].
  - destruct l as [| z l]; [simpl; lia |].
    change (JSON.join sep (y :: z :: l)) with (y +:+ sep +:+ JSON.join sep (z :: l)).
    rewrite !length_app_string. lia.
  - etransitivity; [apply IH, Hx | apply join_length_tail].
Qed.

Lemma length_replicate_char (n : nat) (c : ascii) :
  String.length (replicate_char n c) = n.
Proof. induction n as [| n IH]; simpl; [reflexivity | rewrite IH; reflexivity]. Qed.

(** A store that holds a conversation whose user text alone is larger
    than the ceiling is above the ceiling. *)
Lemma oversized_member `{Platform} (conv : Conversation) (b : DatasetBuilder) :
  conv ∈ conversations b ->
  maxStorage b < Z.of_nat (String.length (user_message conv)) ->
  maxStorage b < getTotalDataSize b.
Proof.
  intros Hin Hbig. rewrite getTotalDataSize_eq.
  pose proof (length_stringify_conversation conv) as Hlen.
  assert ((String.length (stringify_conversation conv)
           <= String.length (JSON.join "," (stringify_conversation <$> conversations b)))%nat).
  { apply join_length_elem, list_elem_of_fmap. eexists. split; [reflexivity | exact Hin]. }
  lia.
Qed.

(** Recording such a conversation leaves the store above the ceiling: the
    record is the newest, and the one eviction that the check runs keeps
    the newest. *)
Lemma oversized_conversation_stays `{Platform} now u a c (b : DatasetBuilder) :
  maxStorage b < Z.of_nat (String.length u) ->
  let b' := recordConversation now u a c b in
  maxStorage b' < getTotalDataSize b'.
Proof.
  intros Hbig b'.
  apply (oversized_member (new_conversation now u a c)).
  - apply last_Some_elem_of, recordConversation_last.
  - subst b'. change (recordConversation now u a c b) with (record (Conversed now u a c) b).
    rewrite maxStorage_record. exact Hbig.
Qed.


(** ** The engine *)

Section EngineBasics.
Context {W : Type} `{Runtime W}.

Lemma keeps_ret {A} (a : A) : keeps_engine (ret (W := W) a).
Proof. intros s. reflexivity. Qed.

Lemma keeps_throw {A} (e : Exception) : keeps_engine (throw (W := W) (A := A) e).
Proof. intros s. reflexivity. Qed.

Lemma keeps_this : keeps_engine (this (W := W)).
Proof. intros s. reflexivity. Qed.

Lemma keeps_call (c : ForeignCall) : keeps_engine (call c).
Proof. intros s. unfold call. destruct (foreign c (world s)). reflexivity. Qed.

Lemma keeps_bind {A B} (m : M W A) (k : A -> M W B) :
  keeps_engine m -> (forall a, keeps_engine (k a)) -> keeps_engine (bind m k).
Proof.
  intros Hm Hk s. unfold bind. specialize (Hm s).
  destruct (m s) as [[a | e |] s1]; simpl in *; [| exact Hm | exact Hm].
  rewrite Hk. exact Hm.
Qed.

Lemma keeps_try_catch {A} (body : M W A) (handler : Exception -> M W A) :
  keeps_engine body -> (forall e, keeps_engine (handler e)) ->
  keeps_engine (try_catch body handler).
Proof.
  intros Hb Hh s. unfold try_catch. specialize (Hb s).
  destruct (body s) as [[a | e |] s1]; simpl in *; [exact Hb | | exact Hb].
  rewrite Hh. exact Hb.
Qed.

Lemma keeps_readString (ptr : Z) : keeps_engine (_readStringFromMemory ptr).
Proof.
  intros s. unfold _readStringFromMemory.
  destruct (until_zero _); reflexivity.
Qed.

End EngineBasics.

Ltac keeps :=
  repeat first
    [ apply keeps_ret | apply keeps_throw | apply keeps_this | apply keeps_call
    | apply keeps_readString
    | apply keeps_try_catch; [| intros ?]
    | apply keeps_bind; [| intros ?]
    | match goal with
      | |- keeps_engine (if ?c then _ else _) => destruct c
      | |- keeps_engine (fun s => _) => intros ?; reflexivity
      end ].

Ltac foreign_cases :=
  repeat match goal with
         | |- context [foreign ?c ?w] =>
             destruct (foreign c w) as [[? | ? |] ?]; simpl; try reflexivity
         | |- context [if ?z =? 0 then _ else _] =>
             destruct (z =? 0); simpl; try reflexivity
         end.

Section EngineFacts.
Context {W : Type} `{Runtime W} `{Platform}.

(** Only [initialize] and [loadModel] write the fields of the engine. *)
Lemma generateResponse_keeps_engine prompt options :
  keeps_engine (generateResponse prompt options).
Proof. unfold generateResponse, generateResponse_body. keeps. Qed.

Lemma trainOnData_keeps_engine trainingData epochs :
  keeps_engine (trainOnData trainingData epochs).
Proof. unfold trainOnData, trainOnData_body. keeps. Qed.

Lemma saveModel_keeps_engine modelName :
  keeps_engine (saveModel modelName).
Proof. unfold saveModel, saveModel_body. keeps. Qed.

(** [loadModel] changes the engine only when it returns [true], and then
    the engine was initialized. *)
Lemma loadModel_outcome modelName modelData (s : System W) :
  match loadModel modelName modelData s with
  | (Returns true, s') =>
      isInitialized (engine s) = true /\
      engine s' = with_model modelName (Z.of_nat (length modelData)) (engine s)
  | (_, s') => engine s' = engine s
  end.
Proof.
  unfold loadModel, loadModel_body, bind, this, try_catch, call, update, ret, throw.
  destruct (isInitialized (engine s)) eqn:Hinit; simpl; [| reflexivity].
  foreign_cases. split; reflexivity.
Qed.

(** [initialize] changes the engine only when it returns [true], and then
    only the flag. *)
Lemma initialize_outcome (s : System W) :
  match initialize s with
  | (Returns true, s') =>
      isInitialized (engine s') = true /\ currentModel (engine s') = currentModel (engine s)
      /\ models (engine s') = models (engine s)
  | (_, s') => engine s' = engine s
  end.
Proof.
  unfold initialize, bind, try_catch, call, update, ret.
  destruct (supports_streaming (world s)); simpl; [| reflexivity].
  foreign_cases. repeat split.
Qed.

Lemma engine_state_with_model modelName len (e : OllamaWebEngine) :
  isInitialized e = true -> engine_state (with_model modelName len e) = ModelLoaded.
Proof. intros Hinit. unfold engine_state. simpl. rewrite Hinit. reflexivity. Qed.

(** What one call does to the state of a coherent engine. *)
Lemma perform_step (r : Request) (s : System W) :
  coherent (engine s) ->
  let result := fst (perform r s) in
  let s' := snd (perform r s) in
  coherent (engine s') /\
  (failed result -> engine s' = engine s) /\
  (engine_state (engine s') = engine_state (engine s) \/
   (engine_state (engine s) = Uninitialized /\ engine_state (engine s') = Ready /\
    r = DoInitialize /\ result = Returns (Flag true)) \/
   (engine_state (engine s) = Ready /\ engine_state (engine s') = ModelLoaded /\
    (exists modelName modelData, r = DoLoadModel modelName modelData) /\
    result = Returns (Flag true))).
Proof.
  intros Hco. destruct r as [| modelName modelData | prompt options | data epochs | modelName];
    cbn [perform]; unfold bind.
  - pose proof (initialize_outcome s) as Hout.
    destruct (initialize s) as [[[|] | e |] s1]; simpl in *;
      try (rewrite Hout; repeat split; [exact Hco | left; reflexivity]).
    destruct Hout as (Hinit & Hcur & _).
    split; [intros Hno; congruence |]. split; [contradiction |].
    unfold engine_state. rewrite Hinit, Hcur. simpl.
    destruct (isInitialized (engine s)) eqn:Hwas; simpl.
    + left. reflexivity.
    + right. left. rewrite (Hco Hwas). repeat split.
  - pose proof (loadModel_outcome modelName modelData s) as Hout.
    destruct (loadModel modelName modelData s) as [[[|] | e |] s1]; simpl in *;
      try (rewrite Hout; repeat split; [exact Hco | left; reflexivity]).
    destruct Hout as (Hinit & ->).
    split; [intros Hno; simpl in Hno; congruence |]. split; [contradiction |].
    rewrite (engine_state_with_model _ _ _ Hinit).
    unfold engine_state. rewrite Hinit. simpl.
    destruct (currentModel (engine s)); [left; reflexivity |].
    right. right. repeat split. eauto.
  - pose proof (generateResponse_keeps_engine prompt options s) as Hkeep.
    destruct (generateResponse prompt options s) as [[t | e |] s1]; simpl in *;
      rewrite Hkeep; repeat split; try exact Hco; left; reflexivity.
  - pose proof (trainOnData_keeps_engine data epochs s) as Hkeep.
    destruct (trainOnData data epochs s) as [[t | e |] s1]; simpl in *;
      rewrite Hkeep; repeat split; try exact Hco; left; reflexivity.
  - pose proof (saveModel_keeps_engine modelName s) as Hkeep.
    destruct (saveModel modelName s) as [[t | e |] s1]; simpl in *;
      rewrite Hkeep; repeat split; try exact Hco; left; reflexivity.
Qed.

Lemma run_coherent (requests : list Request) (s : System W) :
  coherent (engine s) -> coherent (engine (run requests s)).
Proof.
  revert s. induction requests as [| r rest IH]; intros s Hco; [exact Hco |].
  simpl. pose proof (perform_step r s Hco) as [Hco' _]. simpl in Hco'.
  destruct (perform r s) as [[a | e |] s1]; simpl in *; auto.
Qed.

Lemma run_never_regresses (requests : list Request) (s : System W) :
  coherent (engine s) ->
  state_rank (engine_state (engine s)) <= state_rank (engine_state (engine (run requests s))).
Proof.
  revert s. induction requests as [| r rest IH]; intros s Hco; [simpl; lia |].
  simpl. pose proof (perform_step r s Hco) as (Hco' & _ & Hstep). simpl in Hco', Hstep.
  assert (Hone : state_rank (engine_state (engine s))
                 <= state_rank (engine_state (engine (snd (perform r s))))).
  { destruct Hstep as [-> | [(-> & -> & _) | (-> & -> & _)]]; simpl; lia. }
  destruct (perform r s) as [[a | e |] s1]; simpl in *;
    try (specialize (IH s1 Hco')); lia.
Qed.

(** A run of a longer sequence passes through the state its prefix
    reaches, or hangs in the prefix. *)
Lemma run_app (before later : list Request) (s : System W) :
  run (before ++ later) s = run later (run before s) \/
  run (before ++ later) s = run before s.
Proof.
  revert s. induction before as [| r rest IH]; intros s; [left; reflexivity |].
  simpl. destruct (perform r s) as [[a | e |] s1]; auto.
Qed.

End EngineFacts.

Section StateMachine.
Context {W : Type} `{Runtime W} `{Platform}.

(** Without a model ([currentModel] is [null]) [generateResponse] throws
    before any foreign call: the world and the trace are as they were. *)
Lemma generateResponse_without_model prompt options (s : System W) :
  currentModel (engine s) = None ->
  generateResponse prompt options s = (Throws EngineNotReady, s).
Proof.
  intros Hno. unfold generateResponse, bind, this, no_model. simpl.
  rewrite Hno. reflexivity.
Qed.


End StateMachine.

(** The state machine on the scripted runtime: the three states in
    order, and a refused model leaves the engine [Ready]. *)
Lemma scripted_engine_states :
  let run := run (H := scripted) (H0 := integerToString) in
  engine_state (engine (run [] (boot mute_world))) = Uninitialized /\
  engine_state (engine (run [DoInitialize] (boot mute_world))) = Ready /\
  engine_state (engine (run [DoInitialize; DoLoadModel "tiny-llama" tiny_model]
                        (boot mute_world))) = ModelLoaded /\
  engine_state (engine (run [DoInitialize; DoLoadModel "tiny-llama" tiny_model]
                        (boot refusing_world))) = Ready /\
  fst (generateResponse (H := scripted) "привет" default_options ready_system_refused)
  = Throws EngineNotReady.
Proof. repeat split. Qed.


(** With the empty string as its name a model is loaded, and the guard
    of [generateResponse], which tests the name for truthiness, still
    rejects the call. *)
Remark unnamed_model_is_not_usable :
  let s := snd (loadModel (H := scripted) "" tiny_model loaded_system) in
  currentModel (engine s) = Some "" /\
  engine_state (engine s) = ModelLoaded /\
  fst (generateResponse (H := scripted) "привет" default_options s) = Throws EngineNotReady.
Proof. repeat split. Qed.

(** ** Foreign buffers *)

Section ForeignBuffers.
Context {W : Type} `{Runtime W} `{Platform}.

(** When the runtime answers a prompt with the null pointer,
    [generateResponse] throws [GenerationFailed] right after the call:
    the trace ends with the allocation of the prompt buffer, the transfer
    and the call, and no [free_memory]. *)
Lemma generateResponse_null_pointer prompt options (s : System W) p z w1 w2 w3 :
  let promptBuffer := list_byte_of_string prompt in
  let len := Z.of_nat (length promptBuffer) in
  let generation :=
    GenerateResponse p len (default 500%Q (maxTokens options))
      (default 0.7%Q (temperature options)) (default 0.9%Q (topP options)) in
  no_model (engine s) = false ->
  foreign (AllocateMemory len) (world s) = (Returns p, w1) ->
  foreign (MemorySet promptBuffer p) w1 = (Returns z, w2) ->
  foreign generation w2 = (Returns 0, w3) ->
  generateResponse prompt options s =
  (Throws GenerationFailed,
   {| engine := engine s; world := w3;
      trace := ((trace s ++ [(AllocateMemory len, Returns p)])
                  ++ [(MemorySet promptBuffer p, Returns z)])
                  ++ [(generation, Returns 0)] |}).
Proof.
  intros promptBuffer len generation Hmodel Halloc Hset Hgen.
  unfold generateResponse, generateResponse_body, bind, this, try_catch, call, throw.
  simpl. rewrite Hmodel. fold promptBuffer. fold len. rewrite Halloc. simpl.
  rewrite Hset. simpl. fold generation. rewrite Hgen. reflexivity.
Qed.

End ForeignBuffers.

(** C2 on [loaded_system], whose runtime answers with the null pointer:
    [generateResponse] throws [GenerationFailed]; the prompt buffer it
    allocated (at 19) is never passed to [free_memory]. *)
Theorem failed_generation_leaks_prompt_buffer :
  let outcome := generateResponse (H := scripted) "привет" default_options loaded_system in
  fst outcome = Throws GenerationFailed /\
  allocated (trace (snd outcome)) = [19] /\
  freed (trace (snd outcome)) = [] /\
  leaked (trace (snd outcome)) = [19].
Proof. repeat split. Qed.

(** On the path without failure both buffers are freed: in
    [speaking_world] the call returns the text at the response pointer and
    leaves no allocation behind. *)
Remark successful_generation_frees_both_buffers :
  let outcome := generateResponse (H := scripted) "привет" default_options
                   speaking_system in
  fst outcome = Returns "Привет!" /\
  allocated (trace (snd outcome)) = [16] /\
  freed (trace (snd outcome)) = [4; 16] /\
  leaked (trace (snd outcome)) = [].
Proof. vm_compute. repeat split. Qed.

(** The other operations on the scripted runtime: [loadModel] never frees
    the buffer it allocates, also when the model is refused;
    [trainOnData] frees its buffer whatever the status; [saveModel] keeps
    the exported buffer when the store fails. *)
Remark buffers_of_the_other_operations :
  leaked (trace (snd (loadModel (H := scripted) "m" tiny_model loaded_system))) = [19] /\
  leaked (trace (snd (loadModel (H := scripted) "m" tiny_model loaded_system_refused))) = [16] /\
  leaked (trace (snd (trainOnData (H := scripted) (H0 := integerToString)
                        (JsArray []) 3 loaded_system_refused))) = [] /\
  fst (saveModel (H := scripted) "m" loaded_system_refused) = Returns false /\
  freed (trace (snd (saveModel (H := scripted) "m" loaded_system_refused))) = [].
Proof. repeat split. Qed.

(** ** Failures of the foreign side *)

Section Failures.
Context {W : Type} `{Runtime W} `{Platform}.

(** A handler that answers [false] lets no exception through. *)
Lemma try_catch_false_never_throws (body : M W bool) (s : System W) thrown :
  fst (try_catch body (fun error => ret false) s) <> Throws thrown.
Proof.
  unfold try_catch, ret. destruct (body s) as [[b | e |] s1]; simpl; discriminate.
Qed.

Lemma loadModel_catches modelName modelData (s s' : System W) e :
  isInitialized (engine s) = true ->
  loadModel_body modelName modelData s = (Throws e, s') ->
  loadModel modelName modelData s = (Returns false, s') /\ engine s' = engine s.
Proof.
  intros Hinit Hbody.
  pose proof (loadModel_outcome modelName modelData s) as Hout.
  unfold loadModel, bind, this, try_catch in *. simpl in *.
  rewrite Hinit in *. simpl in *. rewrite Hbody in *.
  split; [reflexivity | exact Hout].
Qed.

Lemma loadModel_body_status modelName modelData (s : System W) p z code w1 w2 w3 :
  let len := Z.of_nat (length modelData) in
  foreign (AllocateMemory len) (world s) = (Returns p, w1) ->
  foreign (MemorySet modelData p) w1 = (Returns z, w2) ->
  foreign (LoadModel p len (memoryLimit (engine s))) w2 = (Returns code, w3) ->
  code <> 0 ->
  fst (loadModel_body modelName modelData s) = Throws (ModelLoadFailed code).
Proof.
  intros len Halloc Hset Hload Hcode.
  unfold loadModel_body, bind, this, call, throw. fold len.
  rewrite Halloc. simpl. rewrite Hset. simpl. rewrite Hload. simpl.
  destruct (Z.eqb_spec code 0); [contradiction | reflexivity].
Qed.

Lemma trainOnData_body_status trainingData epochs (s : System W) p z code z' w1 w2 w3 w4 :
  let trainingBuffer := list_byte_of_string (stringify_value trainingData) in
  let len := Z.of_nat (length trainingBuffer) in
  foreign (AllocateMemory len) (world s) = (Returns p, w1) ->
  foreign (MemorySet trainingBuffer p) w1 = (Returns z, w2) ->
  foreign (TrainModel p len epochs) w2 = (Returns code, w3) ->
  foreign (FreeMemory p) w3 = (Returns z', w4) ->
  code <> 0 ->
  fst (trainOnData_body trainingData epochs s) = Throws (TrainingFailed code).
Proof.
  intros trainingBuffer len Halloc Hset Htrain Hfree Hcode.
  unfold trainOnData_body, bind, call, throw. fold trainingBuffer. fold len.
  rewrite Halloc. simpl. rewrite Hset. simpl. rewrite Htrain. simpl.
  rewrite Hfree. simpl.
  destruct (Z.eqb_spec code 0); [contradiction | reflexivity].
Qed.


(** C10.  When [loadModel] does not return [true] while a model is
    current, the engine is as it was: the same current model, the same
    registry (nothing is registered under the name that failed), and a
    later [generateResponse] passes the guard and runs its block as
    before. *)
Theorem failed_loadModel_keeps_current_model (s : System W) newName modelData old :
  currentModel (engine s) = Some old ->
  fst (loadModel newName modelData s) <> Returns true ->
  let s' := snd (loadModel newName modelData s) in
  engine s' = engine s /\
  currentModel (engine s') = Some old /\
  models (engine s') = models (engine s) /\
  models (engine s') !! newName = models (engine s) !! newName /\
  (forall prompt options,
     old <> "" ->
     generateResponse prompt options s' =
     try_catch (generateResponse_body prompt options) (fun error => throw error) s').
Proof.
  intros Hold Hfail s'.
  assert (Heng : engine s' = engine s).
  { subst s'. pose proof (loadModel_outcome newName modelData s) as Hout.
    destruct (loadModel newName modelData s) as [[[|] | e |] s1]; simpl in *;
      [contradiction | exact Hout | exact Hout | exact Hout]. }
  rewrite Heng. repeat split; [exact Hold |].
  intros prompt options Hname.
  unfold generateResponse, bind, this, no_model. simpl. rewrite Heng, Hold.
  destruct (String.eqb_spec old ""); [contradiction | reflexivity].
Qed.

End Failures.



(** The theorem when [refusing_world] rejects a second model: the first
    stays current and the second is not registered. *)
Lemma refused_second_model_keeps_first :
  let s' := snd (loadModel (H := scripted) "other" tiny_model loaded_system_refused) in
  currentModel (engine s') = Some "tiny-llama" /\
  models (engine s') !! "other" = None.
Proof.
  intros s'.
  destruct (failed_loadModel_keeps_current_model (H := scripted)
              loaded_system_refused "other" tiny_model "tiny-llama")
    as (_ & Hcur & _ & Hreg & _); [reflexivity | discriminate |].
  split; [exact Hcur |]. fold s' in Hreg. rewrite Hreg. reflexivity.
Defined.

(** * Further properties of the builder *)

(** ** Classifiers *)

Lemma fold_left_count_up (hit : string -> bool) (words : list string) (score : Z) :
  fold_left (fun score word => if hit word then score + 1 else score) words score
  = score + Z.of_nat (length (List.filter hit words)).
Proof.
  revert score. induction words as [| w words IH]; intros score; simpl; [lia |].
  rewrite IH. destruct (hit w); simpl; lia.
Qed.

Lemma fold_left_count_down (hit : string -> bool) (words : list string) (score : Z) :
  fold_left (fun score word => if hit word then score - 1 else score) words score
  = score - Z.of_nat (length (List.filter hit words)).
Proof.
  revert score. induction words as [| w words IH]; intros score; simpl; [lia |].
  rewrite IH. destruct (hit w); simpl; lia.
Qed.

(** X1.  [analyzeSentiment] compares two counts: the positive and the
    negative keywords that occur in the lower-cased message, each keyword
    counted once however often it occurs.  More positive ones give
    [positive], more negative ones [negative], and a tie, no keyword at
    all included, gives [neutral]. *)
Theorem analyzeSentiment_compares_counts (message : string) :
  let p := count_included (toLowerCase message) positiveWords in
  let n := count_included (toLowerCase message) negativeWords in
  (analyzeSentiment message = positive <-> (n < p)%nat) /\
  (analyzeSentiment message = negative <-> (p < n)%nat) /\
  (analyzeSentiment message = neutral <-> p = n) /\
  (p <= 7)%nat /\ (n <= 7)%nat.
Proof.
  intros p n. unfold analyzeSentiment.
  rewrite fold_left_count_up, fold_left_count_down.
  fold (count_included (toLowerCase message) positiveWords).
  fold (count_included (toLowerCase message) negativeWords).
  fold p. fold n.
  assert (Hp : (p <= 7)%nat) by apply (filter_length_le _ positiveWords).
  assert (Hn : (n <= 7)%nat) by apply (filter_length_le _ negativeWords).
  destruct (Z.ltb_spec 0 (0 + Z.of_nat p - Z.of_nat n)) as [Hpos | Hpos];
    [| destruct (Z.ltb_spec (0 + Z.of_nat p - Z.of_nat n) 0) as [Hneg | Hneg]];
    repeat split; try (intros; lia); try discriminate; try exact Hp; try exact Hn;
    intros; try reflexivity; lia.
Qed.

(** The theorem on [mixed_message]: two positive keywords against one
    negative keyword. *)
Lemma mixed_message_is_positive :
  count_included (toLowerCase mixed_message) positiveWords = 2%nat /\
  count_included (toLowerCase mixed_message) negativeWords = 1%nat /\
  analyzeSentiment mixed_message = positive.
Proof.
  destruct (analyzeSentiment_compares_counts mixed_message) as (Hpos & _).
  assert (Hp : count_included (toLowerCase mixed_message) positiveWords = 2%nat)
    by (vm_compute; reflexivity).
  assert (Hn : count_included (toLowerCase mixed_message) negativeWords = 1%nat)
    by (vm_compute; reflexivity).
  split; [exact Hp |]. split; [exact Hn |].
  apply Hpos. rewrite Hp, Hn. lia.
Defined.

Lemma first_topic_first_match (lowerMessage : string) before t keywords after :
  Forall (fun entry => some_included lowerMessage (snd entry) = false) before ->
  some_included lowerMessage keywords = true ->
  first_topic lowerMessage (before ++ (t, keywords) :: after) = t.
Proof.
  intros Hbefore Hhit. induction Hbefore as [| [t0 k0] before Hmiss _ IH]; simpl.
  - rewrite Hhit. reflexivity.
  - simpl in Hmiss. rewrite Hmiss. exact IH.
Qed.

Lemma first_topic_no_match (lowerMessage : string) entries :
  Forall (fun entry => some_included lowerMessage (snd entry) = false) entries ->
  first_topic lowerMessage entries = general.
Proof.
  intros Hnone. induction Hnone as [| [t0 k0] entries Hmiss _ IH]; simpl; [reflexivity |].
  simpl in Hmiss. rewrite Hmiss. exact IH.
Qed.

Lemma first_topic_in_table (lowerMessage : string) entries :
  first_topic lowerMessage entries = general \/
  exists keywords, (first_topic lowerMessage entries, keywords) ∈ entries /\
                   some_included lowerMessage keywords = true.
Proof.
  induction entries as [| [t0 k0] entries IH]; simpl; [left; reflexivity |].
  destruct (some_included lowerMessage k0) eqn:Hhit.
  - right. exists k0. split; [apply elem_of_cons; left; reflexivity | exact Hhit].
  - destruct IH as [IH | (keywords & Hin & Hk)]; [left; exact IH |].
    right. exists keywords. split; [apply elem_of_cons; right; exact Hin | exact Hk].
Qed.

(** X2.  [analyzeTopic] returns the topic of the first row of the keyword
    table, in the order programming, science, learning, creative,
    technical, one of whose keywords occurs in the lower-cased message,
    whatever later rows match as well; it returns [general] when no row
    matches, and never names a topic none of whose keywords occurs. *)
Theorem analyzeTopic_first_match (message : string) :
  map fst topics = [programming; science; learning; creative; technical] /\
  (forall before t keywords after,
     topics = (before ++ (t, keywords) :: after)%list ->
     Forall (fun entry => some_included (toLowerCase message) (snd entry) = false) before ->
     some_included (toLowerCase message) keywords = true ->
     analyzeTopic message = t) /\
  (Forall (fun entry => some_included (toLowerCase message) (snd entry) = false) topics ->
   analyzeTopic message = general) /\
  (analyzeTopic message <> general ->
   exists keywords, (analyzeTopic message, keywords) ∈ topics /\
                    some_included (toLowerCase message) keywords = true).
Proof.
  split; [reflexivity |]. split; [| split].
  - intros before t keywords after Htable Hbefore Hhit.
    unfold analyzeTopic. rewrite Htable. apply first_topic_first_match; assumption.
  - apply first_topic_no_match.
  - intros Hnot. unfold analyzeTopic in *.
    destruct (first_topic_in_table (toLowerCase message) topics) as [Hgen | Hin];
      [contradiction | exact Hin].
Qed.

(** The theorem on [study_message], which holds a keyword of the
    programming row and one of the learning row: the earlier row wins. *)
Lemma study_message_is_programming :
  some_included (toLowerCase study_message) ["обуч"; "изуч"; "курс"; "учеб"; "заняти"] = true /\
  analyzeTopic study_message = programming.
Proof.
  split; [vm_compute; reflexivity |].
  destruct (analyzeTopic_first_match study_message) as (_ & Hfirst & _).
  apply (Hfirst [] programming
           ["код"; "программир"; "алгоритм"; "python"; "javascript"; "функция"; "переменн"]
           (tail topics));
    [reflexivity | constructor | vm_compute; reflexivity].
Defined.

(** ** Metrics of a session *)

Lemma or_zero_opt_some (t : Q) : (or_zero_opt (Some t) == t)%Q.
Proof. apply or_zero_eq. Qed.

(** X3.  The attention span stored with a session is the focus time in
    seconds as a percentage of one minute, capped at 100: it is never
    above 100, it is 100 from sixty seconds on, and zero when the game
    reports no focus time.  There is no lower bound: it is negative for a
    negative focus time, and not negative otherwise. *)
Theorem attention_span_is_capped now gameType (p : Performance) d o (b : DatasetBuilder) :
  let span := attention_span (learning_metrics (new_gameSession now gameType p d o b)) in
  (span <= 100)%Q /\
  (focusTime p = None -> (span == 0)%Q) /\
  (forall t, focusTime p = Some t ->
     ((t <= 60)%Q -> (span == t / 60 * 100)%Q) /\
     ((60 <= t)%Q -> (span == 100)%Q) /\
     ((0 <= t)%Q -> (0 <= span)%Q) /\
     ((t < 0)%Q -> (span < 0)%Q)).
Proof.
  intros span. subst span. simpl. unfold calculateAttentionSpan.
  split; [apply Q.le_min_l |]. split.
  - intros ->. reflexivity.
  - intros t ->. rewrite or_zero_opt_some.
    assert (Hdiv : (t / 60 * 100 == t * (5 # 3))%Q) by field.
    rewrite Hdiv. repeat split; intros Ht.
    + apply Q.min_r. lra.
    + apply Q.min_l. lra.
    + apply Q.min_glb; lra.
    + apply Q.min_lt_iff. right. lra.
Qed.

(** The theorem on forty-five and on ninety seconds of focus. *)
Lemma attention_span_of_45_and_90_seconds :
  (attention_span (learning_metrics
     (new_gameSession 1 "memory" (focused_for 45) JsNull "победа" new_DatasetBuilder)) == 75)%Q /\
  (attention_span (learning_metrics
     (new_gameSession 1 "memory" (focused_for 90) JsNull "победа" new_DatasetBuilder)) == 100)%Q.
Proof.
  split.
  - destruct (attention_span_is_capped 1 "memory" (focused_for 45) JsNull "победа"
                new_DatasetBuilder) as (_ & _ & Hsome).
    destruct (Hsome 45%Q eq_refl) as (Hbelow & _).
    rewrite Hbelow; [reflexivity | discriminate].
  - destruct (attention_span_is_capped 1 "memory" (focused_for 90) JsNull "победа"
                new_DatasetBuilder) as (_ & _ & Hsome).
    destruct (Hsome 90%Q eq_refl) as (_ & Habove & _).
    apply Habove. discriminate.
Defined.

(** ** The training batch *)

(** X4.  The batch of [prepareTrainingData] holds one example for every
    conversation and every game session of the store, the conversations
    first and in the order of the store, with the user message as input
    and the reply as output; the game examples all carry the context
    [game_learning].  It is empty exactly when both collections are
    empty, and its length is the [total_examples] that [exportDataset]
    writes into the metadata of a snapshot. *)
Theorem prepareTrainingData_shape `{Platform} (date : string) (b : DatasetBuilder) :
  let batch := prepareTrainingData b in
  let n := length (conversations b) in
  length batch = (n + length (gameData b))%nat /\
  (batch = [] <-> conversations b = [] /\ gameData b = []) /\
  input <$> take n batch = user_message <$> conversations b /\
  output <$> take n batch = ai_response <$> conversations b /\
  Forall (fun example => example_context example = "game_learning") (drop n batch) /\
  total_examples <$> ds_metadata (exportDataset date b) = Some (Z.of_nat (length batch)).
Proof.
  intros batch n. subst batch n. unfold prepareTrainingData.
  assert (Hlen : length (map conversation_example (conversations b))
                 = length (conversations b)) by apply length_map.
  split; [rewrite length_app, !length_map; reflexivity |].
  split.
  - split.
    + intros Hnil. apply app_eq_nil in Hnil as [Hc Hg].
      split; [destruct (conversations b) | destruct (gameData b)];
        first [reflexivity | discriminate].
    + intros [-> ->]. reflexivity.
  - rewrite <- Hlen at 1 2 3. rewrite take_app_length, drop_app_length.
    split; [rewrite <- list_fmap_compose; reflexivity |].
    split; [rewrite <- list_fmap_compose; reflexivity |].
    split.
    + apply Forall_fmap, Forall_forall. intros game _. reflexivity.
    + simpl. rewrite length_app, !length_map. f_equal. lia.
Qed.

(** ** Eviction and the capacity check *)

Lemma slice_from_suffix {A} (start : Z) (l : list A) : slice_from start l `suffix_of` l.
Proof. unfold slice_from. apply suffix_drop. Qed.

Lemma checkStorageLimit_conversations_suffix `{Platform} (b : DatasetBuilder) :
  conversations (checkStorageLimit b) `suffix_of` conversations b.
Proof.
  unfold checkStorageLimit. destruct (maxStorage b <? getTotalDataSize b); [| reflexivity].
  rewrite conversations_cleanupOldData. apply slice_from_suffix.
Qed.

Lemma checkStorageLimit_gameData_suffix `{Platform} (b : DatasetBuilder) :
  gameData (checkStorageLimit b) `suffix_of` gameData b.
Proof.
  unfold checkStorageLimit. destruct (maxStorage b <? getTotalDataSize b); [| reflexivity].
  rewrite gameData_cleanupOldData. apply slice_from_suffix.
Qed.

Lemma cleanupOldData_size `{Platform} (b : DatasetBuilder) :
  getTotalDataSize (cleanupOldData b) <= getTotalDataSize b.
Proof.
  rewrite !getTotalDataSize_eq.
  rewrite conversations_cleanupOldData, gameData_cleanupOldData, !slice_from_fmap.
  pose proof (join_length_kept "," (stringify_conversation <$> conversations b)) as Hc.
  pose proof (join_length_kept "," (stringify_game <$> gameData b)) as Hg.
  rewrite length_fmap in Hc. rewrite length_fmap in Hg. lia.
Qed.

(** X5.  An eviction never grows the estimated size and never loses the
    newest record: what [cleanupOldData] keeps of each collection is a
    tail of it that ends with the same record, so a collection that was
    not empty is not empty afterwards.  The same holds for
    [checkStorageLimit], which moreover leaves a store that is within its
    ceiling exactly as it is. *)
Theorem eviction_keeps_a_tail `{Platform} (b : DatasetBuilder) :
  getTotalDataSize (cleanupOldData b) <= getTotalDataSize b /\
  conversations (cleanupOldData b) `suffix_of` conversations b /\
  gameData (cleanupOldData b) `suffix_of` gameData b /\
  last (conversations (cleanupOldData b)) = last (conversations b) /\
  last (gameData (cleanupOldData b)) = last (gameData b) /\
  getTotalDataSize (checkStorageLimit b) <= getTotalDataSize b /\
  last (conversations (checkStorageLimit b)) = last (conversations b) /\
  last (gameData (checkStorageLimit b)) = last (gameData b) /\
  (getTotalDataSize b <= maxStorage b -> checkStorageLimit b = b).
Proof.
  split; [apply cleanupOldData_size |].
  split; [rewrite conversations_cleanupOldData; apply slice_from_suffix |].
  split; [rewrite gameData_cleanupOldData; apply slice_from_suffix |].
  split; [rewrite conversations_cleanupOldData; apply last_kept_by_cleanup |].
  split; [rewrite gameData_cleanupOldData; apply last_kept_by_cleanup |].
  split.
  { unfold checkStorageLimit. destruct (maxStorage b <? getTotalDataSize b);
      [apply cleanupOldData_size | lia]. }
  split; [apply last_checkStorageLimit_conversations |].
  split; [apply last_checkStorageLimit_gameData |].
  intros Hfits. unfold checkStorageLimit.
  destruct (Z.ltb_spec (maxStorage b) (getTotalDataSize b)); [lia | reflexivity].
Qed.

(** The theorem on [tight_store], which is within its 600 bytes. *)
Lemma tight_store_is_left_alone :
  checkStorageLimit (H := integerToString) tight_store = tight_store.
Proof.
  apply (eviction_keeps_a_tail (H := integerToString) tight_store).
  vm_compute. discriminate.
Defined.

Lemma userPreferences_record `{Platform} (r : Recording) (b : DatasetBuilder) :
  userPreferences (record r b) = userPreferences b.
Proof.
  rewrite record_eq. unfold checkStorageLimit.
  destruct (maxStorage (pushed r b) <? getTotalDataSize (pushed r b)); destruct r; reflexivity.
Qed.

Lemma learningSessions_record `{Platform} (r : Recording) (b : DatasetBuilder) :
  learningSessions (record r b) = learningSessions b.
Proof.
  rewrite record_eq. unfold checkStorageLimit.
  destruct (maxStorage (pushed r b) <? getTotalDataSize (pushed r b)); destruct r; reflexivity.
Qed.

Lemma conversations_record_suffix `{Platform} (r : Recording) (b : DatasetBuilder) :
  conversations (record r b) `suffix_of` (conversations b ++ conversed [r])%list.
Proof.
  rewrite record_eq. etransitivity; [apply checkStorageLimit_conversations_suffix |].
  destruct r; simpl; [reflexivity | rewrite app_nil_r; reflexivity].
Qed.

Lemma conversed_cons (r : Recording) (rs : list Recording) :
  conversed (r :: rs) = (conversed [r] ++ conversed rs)%list.
Proof. destruct r; reflexivity. Qed.

(** X6.  Whatever sequence of [recordConversation] and [recordGameData]
    calls is made, the conversations of the store are a tail of the
    conversations it started with followed by the ones recorded, in
    order: records leave only from the old end, none is reordered or
    changed.  The calls never touch the ceiling, the preferences or the
    learning sessions. *)
Theorem records_form_a_recent_run `{Platform} (rs : list Recording) (b : DatasetBuilder) :
  conversations (record_all rs b) `suffix_of` (conversations b ++ conversed rs)%list /\
  maxStorage (record_all rs b) = maxStorage b /\
  userPreferences (record_all rs b) = userPreferences b /\
  learningSessions (record_all rs b) = learningSessions b.
Proof.
  revert b. induction rs as [| r rs IH]; intros b.
  - simpl. rewrite app_nil_r. repeat split. reflexivity.
  - change (record_all (r :: rs) b) with (record_all rs (record r b)).
    destruct (IH (record r b)) as (Hconv & Hmax & Hprefs & Hsessions).
    rewrite Hmax, Hprefs, Hsessions, maxStorage_record, userPreferences_record,
      learningSessions_record.
    split; [| repeat split].
    etransitivity; [exact Hconv |].
    rewrite (conversed_cons r rs), app_assoc. apply suffix_app, conversations_record_suffix.
Qed.

(** ** Import *)

(** X7.  [importDataset] is all or nothing.  A file that cannot be read
    or parsed rejects and leaves the store as it is.  A parsed snapshot
    replaces the conversations, the game sessions and the preferences
    wholesale: nothing of the three survives from the store, and a
    property the snapshot lacks becomes empty, so two stores with the
    same ceiling and learning sessions end up equal.  The ceiling and the
    learning sessions are never imported. *)
Theorem importDataset_replaces_wholesale (importedData : Dataset) (b other : DatasetBuilder) :
  importDataset ReadError b = Rejected "Ошибка чтения файла" b /\
  importDataset Unparsable b = Rejected "Ошибка парсинга файла датасета" b /\
  (exists imported,
     importDataset (Parsed importedData) b = Resolved true imported /\
     (ds_conversations importedData = None -> conversations imported = []) /\
     (ds_gameData importedData = None -> gameData imported = []) /\
     (ds_userPreferences importedData = None -> userPreferences imported = JsObject []) /\
     (forall cs, ds_conversations importedData = Some cs -> conversations imported = cs) /\
     (forall gs, ds_gameData importedData = Some gs -> gameData imported = gs) /\
     maxStorage imported = maxStorage b /\
     learningSessions imported = learningSessions b) /\
  (maxStorage b = maxStorage other -> learningSessions b = learningSessions other ->
   importDataset (Parsed importedData) b = importDataset (Parsed importedData) other).
Proof.
  split; [reflexivity |]. split; [reflexivity |]. split.
  - eexists. split; [reflexivity |]. simpl.
    repeat split; try (intros ->; reflexivity); intros ? ->; reflexivity.
  - intros Hmax Hsessions. simpl. rewrite Hmax, Hsessions. reflexivity.
Qed.

(** The theorem on a snapshot without properties, imported into
    [small_store] and into [tight_store] with the ceiling of the former:
    both end up empty and equal. *)
Lemma empty_snapshot_clears_the_store :
  let empty := {| ds_conversations := None; ds_gameData := None;
                  ds_userPreferences := None; ds_metadata := None |} in
  importDataset (Parsed empty) small_store
  = importDataset (Parsed empty)
      (set_conversations (conversations tight_store) new_DatasetBuilder) /\
  importDataset (Parsed empty) small_store = Resolved true new_DatasetBuilder.
Proof.
  intros empty. split.
  - apply (importDataset_replaces_wholesale empty small_store
             (set_conversations (conversations tight_store) new_DatasetBuilder));
      reflexivity.
  - reflexivity.
Defined.

(** * Further properties of the engine *)

(** ** Strings in the linear memory *)

Lemma until_zero_terminated (text post : list byte) :
  x00 ∉ text -> until_zero (text ++ x00 :: post) = Some text.
Proof.
  induction text as [| b text IH]; intros Hzero; [reflexivity |].
  apply not_elem_of_cons in Hzero as [Hb Htext]. simpl.
  destruct (Byte.eqb b x00) eqn:Heq.
  - apply byte_dec_bl in Heq. congruence.
  - rewrite (IH Htext). reflexivity.
Qed.

Lemma until_zero_none (bytes : list byte) :
  x00 ∉ bytes -> until_zero bytes = None.
Proof.
  induction bytes as [| b bytes IH]; intros Hzero; [reflexivity |].
  apply not_elem_of_cons in Hzero as [Hb Hrest]. simpl.
  destruct (Byte.eqb b x00) eqn:Heq.
  - apply byte_dec_bl in Heq. congruence.
  - rewrite (IH Hrest). reflexivity.
Qed.

Lemma slice_middle {A} (pre mid post : list A) :
  slice (Z.of_nat (length pre)) (Z.of_nat (length pre) + Z.of_nat (length mid))
        (pre ++ mid ++ post) = mid.
Proof.
  unfold slice. rewrite !length_app.
  destruct (Z.ltb_spec (Z.of_nat (length pre)) 0) as [Hneg | _]; [lia |].
  destruct (Z.ltb_spec (Z.of_nat (length pre) + Z.of_nat (length mid)) 0) as [Hneg | _];
    [lia |].
  replace (Z.to_nat (Z.min (Z.of_nat (length pre))
                       (Z.of_nat (length pre + (length mid + length post)))))
    with (length pre) by lia.
  replace (Z.to_nat (Z.min (Z.of_nat (length pre) + Z.of_nat (length mid))
                       (Z.of_nat (length pre + (length mid + length post)))
                     - Z.min (Z.of_nat (length pre))
                         (Z.of_nat (length pre + (length mid + length post)))))
    with (length mid) by lia.
  rewrite drop_app_length. apply take_app_length.
Qed.

Section MemoryStrings.
Context {W : Type} `{Runtime W}.


(** X9.  [_readStringFromMemory] never returns when no zero byte stands
    at or after the pointer, in particular when the pointer lies beyond
    the memory: the loop reads [undefined] there, which is not zero. *)
Theorem readString_hangs_without_terminator (s : System W) (ptr : Z) :
  x00 ∉ drop (Z.to_nat ptr) (memory (world s)) ->
  _readStringFromMemory ptr s = (Hangs, s).
Proof.
  intros Hzero. unfold _readStringFromMemory.
  replace (Z.to_nat (Z.max ptr 0)) with (Z.to_nat ptr) by lia.
  rewrite (until_zero_none _ Hzero). reflexivity.
Qed.

End MemoryStrings.


Lemma pointer_beyond_memory_hangs :
  _readStringFromMemory (H := scripted) 1000 speaking_system = (Hangs, speaking_system).
Proof.
  apply (readString_hangs_without_terminator (H := scripted) speaking_system 1000).
  vm_compute. intros Hin. inversion Hin.
Defined.

(** ** What the operations of the engine leave in the trace *)

Lemma drop_trace {A} (before new : list A) :
  drop (length before) (before ++ new) = new.
Proof. apply drop_app_length. Qed.

Lemma remove_one_same (p : Z) : remove_one p [p] = [].
Proof. simpl. rewrite Z.eqb_refl. reflexivity. Qed.

Lemma leaked_after_two_frees (p q : Z) : remove_one p (remove_one q [p]) = [].
Proof.
  simpl. destruct (q =? p); simpl; [reflexivity |]. rewrite Z.eqb_refl. reflexivity.
Qed.

Ltac new_trace :=
  unfold new_events; simpl; rewrite <- ?app_assoc; simpl;
  rewrite ?drop_trace, ?drop_all.

Ltac step_foreign :=
  match goal with
  | |- context [foreign ?c ?w] =>
      let r := fresh "r" in
      let w' := fresh "w" in
      destruct (foreign c w) as [[r | r |] w'] eqn:?; simpl
  end.

Ltac absent_event :=
  rewrite <- ?app_assoc; simpl; rewrite drop_trace;
  let Hin := fresh "Hin" in
  intros Hin;
  repeat (apply elem_of_cons in Hin as [Hin | Hin]; [discriminate |]);
  inversion Hin.

Section Buffers.
Context {W : Type} `{Runtime W} `{Platform}.

(** X10.  A [generateResponse] that returns has made exactly five
    foreign calls, each of which returned: the allocation of the prompt
    buffer, the transfer, the generation with a result pointer other than
    zero, and the release of the response and of the prompt buffer, in
    this order.  No allocation of the call is left behind, and the engine
    is as before. *)
Theorem returned_generation_leaks_nothing prompt options (s s' : System W) text :
  let promptBuffer := list_byte_of_string prompt in
  let len := Z.of_nat (length promptBuffer) in
  let events := new_events (generateResponse prompt options) s in
  generateResponse prompt options s = (Returns text, s') ->
  exists promptPtr responsePtr z1 z2 z3,
    responsePtr <> 0 /\
    events =
      [ (AllocateMemory len, Returns promptPtr);
        (MemorySet promptBuffer promptPtr, Returns z1);
        (GenerateResponse promptPtr len (default 500%Q (maxTokens options))
           (default 0.7%Q (temperature options)) (default 0.9%Q (topP options)),
         Returns responsePtr);
        (FreeMemory responsePtr, Returns z2);
        (FreeMemory promptPtr, Returns z3) ] /\
    allocated events = [promptPtr] /\
    freed events = [responsePtr; promptPtr] /\
    leaked events = [] /\
    engine s' = engine s.
Proof.
  intros promptBuffer len events. subst events. unfold new_events.
  unfold generateResponse, generateResponse_body, bind, this, try_catch, call, throw, ret,
    _readStringFromMemory.
  simpl. fold promptBuffer. fold len.
  destruct (no_model (engine s)); [discriminate |].
  step_foreign; try discriminate.
  step_foreign; try discriminate.
  step_foreign; try discriminate.
  destruct (Z.eqb_spec r1 0) as [| Hptr]; simpl; [discriminate |].
  destruct (until_zero _); simpl; [| discriminate].
  step_foreign; try discriminate.
  step_foreign; try discriminate.
  intros [= <- <-]. exists r, r1, r0, r2, r3.
  rewrite <- !app_assoc. simpl. rewrite drop_trace.
  repeat split; try assumption.
  unfold leaked. simpl. apply leaked_after_two_frees.
Qed.

(** X11.  [trainOnData] releases its buffer whatever the runtime says:
    once [train_model] has returned a status, zero or not, the next
    foreign call is [free_memory] on the pointer that was allocated, so
    nothing is left behind; and the call returns [true] only for status
    zero. *)
Theorem trainOnData_frees_its_buffer trainingData epochs (s : System W) ptr size code :
  let events := new_events (trainOnData trainingData epochs) s in
  (TrainModel ptr size epochs, Returns code) ∈ events ->
  allocated events = [ptr] /\ freed events = [ptr] /\ leaked events = [] /\
  (fst (trainOnData trainingData epochs s) = Returns true -> code = 0).
Proof.
  intros events. subst events. unfold new_events.
  unfold trainOnData, trainOnData_body, bind, this, try_catch, call, throw, ret.
  simpl.
  destruct (no_model (engine s)); simpl.
  { rewrite drop_all. intros Hin. inversion Hin. }
  step_foreign; [| absent_event | absent_event].
  step_foreign; [| absent_event | absent_event].
  step_foreign; [| absent_event | absent_event].
  assert (Hleak : forall r', leaked
            [ (AllocateMemory (Z.of_nat (length (list_byte_of_string
                                                   (stringify_value trainingData)))),
               Returns r);
              (MemorySet (list_byte_of_string (stringify_value trainingData)) r, Returns r0);
              (TrainModel r (Z.of_nat (length (list_byte_of_string
                                                 (stringify_value trainingData)))) epochs,
               Returns r1);
              (FreeMemory r, r') ] = []).
  { intros r'. unfold leaked. simpl. apply remove_one_same. }
  step_foreign; [destruct (Z.eqb_spec r1 0) as [Hzero | Hother]; simpl | |];
    rewrite <- ?app_assoc; simpl; rewrite drop_trace;
    intros Hin;
    do 2 (apply elem_of_cons in Hin as [Hin | Hin]; [discriminate |]);
    (apply elem_of_cons in Hin as [Hin | Hin];
     [| apply elem_of_cons in Hin as [Hin | Hin]; [discriminate | inversion Hin]]);
    injection Hin as -> -> ->;
    (repeat split; [apply Hleak |]);
    first [ intros _; assumption | discriminate ].
Qed.

(** X12.  [loadModel] never releases the buffer into which it copies the
    model: whatever the outcome, accepted, refused, failed or hung, it
    makes no [free_memory] call, so every pointer its allocation returned
    stays allocated. *)
Theorem loadModel_never_frees modelName modelData (s : System W) :
  let events := new_events (loadModel modelName modelData) s in
  freed events = [] /\ leaked events = allocated events.
Proof.
  intros events. subst events. unfold new_events, leaked.
  unfold loadModel, loadModel_body, bind, this, try_catch, call, throw, ret, update.
  simpl.
  destruct (isInitialized (engine s)); simpl; [| rewrite drop_all; split; reflexivity].
  step_foreign; rewrite <- ?app_assoc; simpl; rewrite ?drop_trace; try (split; reflexivity).
  step_foreign; rewrite <- ?app_assoc; simpl; rewrite ?drop_trace; try (split; reflexivity).
  step_foreign; rewrite <- ?app_assoc; simpl; rewrite ?drop_trace; try (split; reflexivity).
  destruct (r1 =? 0); simpl; rewrite <- ?app_assoc; simpl; rewrite ?drop_trace;
    split; reflexivity.
Qed.

End Buffers.

(** The two theorems on the scripted runtime: the generation that
    answers with the greeting, and a training run refused with status 3. *)
Lemma greeting_generation_leaks_nothing :
  let events := new_events (generateResponse (H := scripted) "привет" default_options)
                  speaking_system in
  fst (generateResponse (H := scripted) "привет" default_options speaking_system)
  = Returns "Привет!" /\
  freed events = [4; 16] /\ leaked events = [].
Proof.
  destruct (returned_generation_leaks_nothing (H := scripted) "привет" default_options
              speaking_system
              (snd (generateResponse (H := scripted) "привет" default_options
                      speaking_system))
              "Привет!")
    as (p & rp & z1 & z2 & z3 & _ & _ & _ & _ & Hleak & _).
  - vm_compute. reflexivity.
  - split; [vm_compute; reflexivity |]. split; [vm_compute; reflexivity | exact Hleak].
Defined.

Lemma refused_training_frees_its_buffer :
  let events := new_events (trainOnData (H := scripted) (H0 := integerToString)
                              (JsArray []) 3) loaded_system_refused in
  fst (trainOnData (H := scripted) (H0 := integerToString) (JsArray []) 3
         loaded_system_refused) = Returns false /\
  allocated events = [16] /\ freed events = [16] /\ leaked events = [].
Proof.
  destruct (trainOnData_frees_its_buffer (H := scripted) (H0 := integerToString)
              (JsArray []) 3 loaded_system_refused 16 2 3)
    as (Hallocated & Hfreed & Hleaked & _).
  - apply (list_elem_of_lookup_2 _ 2%nat). vm_compute. reflexivity.
  - split; [vm_compute; reflexivity |]. repeat split; assumption.
Defined.

(** ** The registry of models *)

Lemma registry_agrees_same (e e' : OllamaWebEngine) :
  currentModel e' = currentModel e -> models e' = models e ->
  registry_agrees e -> registry_agrees e'.
Proof. unfold registry_agrees. intros -> ->. trivial. Qed.

Lemma registry_agrees_with_model modelName len (e : OllamaWebEngine) :
  0 <= len -> registry_agrees e -> registry_agrees (with_model modelName len e).
Proof.
  intros Hlen [_ Hall]. split; simpl.
  - rewrite lookup_insert_eq. eauto.
  - intros name d. destruct (decide (modelName = name)) as [-> | Hother].
    + rewrite lookup_insert_eq. intros [= <-]. simpl. split; [reflexivity | exact Hlen].
    + rewrite lookup_insert_ne by exact Hother. apply Hall.
Qed.

Section Registry.
Context {W : Type} `{Runtime W} `{Platform}.

Lemma perform_registry (r : Request) (s : System W) :
  registry_agrees (engine s) -> registry_agrees (engine (snd (perform r s))).
Proof.
  intros Hagree.
  destruct r as [| modelName modelData | prompt options | data epochs | modelName];
    cbn [perform]; unfold bind.
  - pose proof (initialize_outcome s) as Hout.
    destruct (initialize s) as [[[|] | e |] s1]; simpl in *;
      try (rewrite Hout; exact Hagree).
    destruct Hout as (_ & Hcur & Hmodels).
    exact (registry_agrees_same _ _ Hcur Hmodels Hagree).
  - pose proof (loadModel_outcome modelName modelData s) as Hout.
    destruct (loadModel modelName modelData s) as [[[|] | e |] s1]; simpl in *;
      try (rewrite Hout; exact Hagree).
    destruct Hout as (_ & ->). apply registry_agrees_with_model; [lia | exact Hagree].
  - pose proof (generateResponse_keeps_engine prompt options s) as Hkeep.
    destruct (generateResponse prompt options s) as [[t | e |] s1]; simpl in *;
      rewrite Hkeep; exact Hagree.
  - pose proof (trainOnData_keeps_engine data epochs s) as Hkeep.
    destruct (trainOnData data epochs s) as [[t | e |] s1]; simpl in *;
      rewrite Hkeep; exact Hagree.
  - pose proof (saveModel_keeps_engine modelName s) as Hkeep.
    destruct (saveModel modelName s) as [[t | e |] s1]; simpl in *;
      rewrite Hkeep; exact Hagree.
Qed.

Lemma run_registry (requests : list Request) (s : System W) :
  registry_agrees (engine s) -> registry_agrees (engine (run requests s)).
Proof.
  revert s. induction requests as [| r rest IH]; intros s Hagree; [exact Hagree |].
  simpl. pose proof (perform_registry r s Hagree) as Hnext.
  destruct (perform r s) as [[a | e |] s1]; simpl in *; auto.
Qed.


(** X14.  [initialize] never throws.  Where streaming instantiation is
    not supported it returns [false] without a foreign call; otherwise it
    makes the one instantiation and returns [true] exactly when that
    returned.  It sets the flag exactly when it returns [true] and
    leaves the engine as it was otherwise; there is no guard against a
    second call, which instantiates again. *)
Theorem initialize_reports (s : System W) :
  let outcome := initialize s in
  (forall e, fst outcome <> Throws e) /\
  (supports_streaming (world s) = false -> outcome = (Returns false, s)) /\
  (supports_streaming (world s) = true ->
   new_events initialize s = [(Instantiate, fst (foreign Instantiate (world s)))] /\
   (fst outcome = Returns true <-> exists z, fst (foreign Instantiate (world s)) = Returns z)) /\
  (fst outcome = Returns true -> isInitialized (engine (snd outcome)) = true) /\
  (fst outcome <> Returns true -> engine (snd outcome) = engine s).
Proof.
  unfold new_events, initialize, bind, try_catch, call, update, ret.
  destruct (supports_streaming (world s)); simpl.
  - destruct (foreign Instantiate (world s)) as [[z | e |] w1]; simpl;
      rewrite drop_trace;
      (split; [intros e'; discriminate |]);
      (split; [discriminate |]);
      (split; [intros _; split; [reflexivity |] |]).
    + split; [eauto | reflexivity].
    + split; [reflexivity | contradiction].
    + split; [discriminate | intros [z [=]]].
    + split; [discriminate | reflexivity].
    + split; [discriminate | intros [z [=]]].
    + split; [discriminate | reflexivity].
  - split; [intros e'; discriminate |].
    split; [destruct s; reflexivity |].
    split; [discriminate |].
    split; [discriminate | reflexivity].
Qed.

(** X15.  The guards come before the [try] blocks, so a call made too
    early throws to its caller instead of returning [false], and it
    throws before any foreign call: [loadModel] on an engine that is not
    initialized throws [EngineNotInitialized]; [generateResponse],
    [trainOnData] and [saveModel] without a usable current model throw
    [EngineNotReady]; the system is as it was. *)
Theorem guards_throw_before_any_call (s : System W) :
  (isInitialized (engine s) = false ->
   forall modelName modelData,
     loadModel modelName modelData s = (Throws EngineNotInitialized, s)) /\
  (no_model (engine s) = true ->
   (forall prompt options,
      generateResponse prompt options s = (Throws EngineNotReady, s)) /\
   (forall trainingData epochs,
      trainOnData trainingData epochs s = (Throws EngineNotReady, s)) /\
   (forall modelName, saveModel modelName s = (Throws EngineNotReady, s))).
Proof.
  unfold loadModel, generateResponse, trainOnData, saveModel, bind, this, throw.
  simpl. split.
  - intros Hinit modelName modelData. rewrite Hinit. reflexivity.
  - intros Hno. rewrite Hno. repeat split.
Qed.

(** X16.  A [saveModel] that returns [true] has asked the runtime for
    the size and for the exported model, has stored under the name it was
    given the bytes of the memory between the exported pointer and that
    pointer plus the size, as the memory stands after the export, and has
    then released the exported buffer; the engine is as before. *)
Theorem returned_save_stores_exported_bytes modelName (s s' : System W) :
  saveModel modelName s = (Returns true, s') ->
  exists modelSize modelPtr w1 w2 z1 z2,
    foreign GetModelSize (world s) = (Returns modelSize, w1) /\
    foreign ExportModel w1 = (Returns modelPtr, w2) /\
    new_events (saveModel modelName) s =
      [ (GetModelSize, Returns modelSize);
        (ExportModel, Returns modelPtr);
        (SaveToIndexedDB modelName (slice modelPtr (modelPtr + modelSize) (memory w2)),
         Returns z1);
        (FreeMemory modelPtr, Returns z2) ] /\
    engine s' = engine s.
Proof.
  unfold new_events.
  unfold saveModel, saveModel_body, bind, this, try_catch, call, throw, ret.
  simpl.
  destruct (no_model (engine s)); [discriminate |].
  step_foreign; try discriminate.
  step_foreign; try discriminate.
  step_foreign; try discriminate.
  step_foreign; try discriminate.
  intros [= <-]. exists r, r0, w, w0, r1, r2.
  rewrite <- !app_assoc. simpl. rewrite drop_trace.
  repeat split; assumption.
Qed.

End Registry.

(** The guards on a new engine, and a model saved on the scripted
    runtime, whose memory holds zeros. *)
Lemma new_engine_rejects_every_operation :
  loadModel (H := scripted) "tiny-llama" tiny_model (boot mute_world)
  = (Throws EngineNotInitialized, boot mute_world) /\
  saveModel (H := scripted) "tiny-llama" (boot mute_world)
  = (Throws EngineNotReady, boot mute_world).
Proof.
  destruct (guards_throw_before_any_call (H := scripted) (H0 := integerToString)
              (boot mute_world))
    as (Hload & Hguarded).
  destruct (Hguarded eq_refl) as (_ & _ & Hsave).
  split; [apply Hload; reflexivity | apply Hsave].
Defined.

Lemma saved_model_is_four_zero_bytes :
  new_events (saveModel (H := scripted) "tiny-llama") loaded_system =
  [ (GetModelSize, Returns 4); (ExportModel, Returns 19);
    (SaveToIndexedDB "tiny-llama" [x00; x00; x00; x00], Returns 0);
    (FreeMemory 19, Returns 0) ].
Proof.
  destruct (returned_save_stores_exported_bytes (H := scripted) "tiny-llama" loaded_system
              (snd (saveModel (H := scripted) "tiny-llama" loaded_system)))
    as (modelSize & modelPtr & w1 & w2 & z1 & z2 & _ & _ & Hevents & _).
  - vm_compute. reflexivity.
  - vm_compute. reflexivity.
Defined.

(** * Properties of the application *)

(** ** Swipes *)

Lemma Qlt_bool_iff (a b : Q) : Qlt_bool a b = true <-> (a < b)%Q.
Proof.
  unfold Qlt_bool. rewrite negb_true_iff. split.
  - intros Hle. apply Qnot_le_lt. intros Hc. apply Qle_bool_iff in Hc. congruence.
  - intros Hlt. destruct (Qle_bool b a) eqn:Hle; [| reflexivity].
    apply Qle_bool_iff in Hle. exfalso. exact (Qlt_not_le _ _ Hlt Hle).
Qed.

Lemma Qlt_bool_false (a b : Q) : Qlt_bool a b = false <-> (b <= a)%Q.
Proof.
  unfold Qlt_bool. rewrite negb_false_iff. apply Qle_bool_iff.
Qed.

(** The three kinds of gesture: a swipe to the left, a swipe to the
    right, and a movement of at most fifty. *)
Lemma swipe_cases (diff : Q) :
  ((50 < diff)%Q /\ Qgt_bool (Qabs diff) 50 = true /\
   Qgt_bool diff 0 = true /\ Qlt_bool diff 0 = false) \/
  ((diff < - (50))%Q /\ Qgt_bool (Qabs diff) 50 = true /\
   Qgt_bool diff 0 = false /\ Qlt_bool diff 0 = true) \/
  ((- (50) <= diff <= 50)%Q /\ Qgt_bool (Qabs diff) 50 = false).
Proof.
  unfold Qgt_bool.
  destruct (Qlt_le_dec 50 diff) as [Hleft | Hle].
  - left. split; [exact Hleft |]. split; [| split].
    + apply Qlt_bool_iff. apply Qlt_le_trans with diff; [exact Hleft | apply Qle_Qabs].
    + apply Qlt_bool_iff. lra.
    + apply Qlt_bool_false. lra.
  - destruct (Qlt_le_dec diff (- (50))) as [Hright | Hge].
    + right. left. split; [exact Hright |]. split; [| split].
      * apply Qlt_bool_iff. apply Qlt_le_trans with (- diff)%Q; [lra |].
        rewrite <- Qabs_opp. apply Qle_Qabs.
      * apply Qlt_bool_false. lra.
      * apply Qlt_bool_iff. lra.
    + right. right. split; [split; assumption |].
      apply Qlt_bool_false. apply Qabs_Qle_condition. split; assumption.
Qed.

(** X17.  From one of the four tabs [handleSwipe] always leaves one of
    the four tabs current: a swipe to the left by more than fifty moves
    to the next tab and stops at the last one, a swipe to the right by
    more than fifty moves to the previous tab and stops at the first one,
    and a movement of fifty or less changes nothing. *)
Theorem handleSwipe_moves_one_tab (startX endX : Q) (tab : string) :
  tab ∈ tabs ->
  let diff := (startX - endX)%Q in
  let i := indexOf (Some tab) tabs in
  exists next,
    handleSwipe startX endX (Some tab) = Some next /\ next ∈ tabs /\
    ((50 < diff)%Q -> indexOf (Some next) tabs = Z.min (i + 1) 3) /\
    ((diff < - (50))%Q -> indexOf (Some next) tabs = Z.max (i - 1) 0) /\
    ((- (50) <= diff <= 50)%Q -> next = tab).
Proof.
  intros Hin diff i. subst i. unfold handleSwipe. fold diff.
  assert (Htabs : forall t, t ∈ ["chat"; "games"; "learn"; "models"] <-> t ∈ tabs)
    by reflexivity.
  apply Htabs in Hin.
  repeat (apply elem_of_cons in Hin as [-> | Hin]); [| | | | inversion Hin];
    destruct (swipe_cases diff)
      as [(Hd & -> & -> & ->) | [(Hd & -> & -> & ->) | (Hd & ->)]];
    simpl;
    eexists; (split; [reflexivity |]);
    (split; [apply list_elem_of_In; simpl; tauto |]);
    simpl; repeat split; intros; try reflexivity; lra.
Qed.

(** X18.  When the current tab is none of the four, [indexOf] answers
    -1: a swipe to the left then opens the first tab, and a swipe to the
    right changes nothing. *)
Theorem handleSwipe_from_unknown_tab (startX endX : Q) (tab : string) :
  tab ∉ tabs ->
  ((50 < startX - endX)%Q -> handleSwipe startX endX (Some tab) = Some "chat") /\
  ((startX - endX <= 50)%Q -> handleSwipe startX endX (Some tab) = Some tab).
Proof.
  intros Hout.
  assert (Hindex : indexOf (Some tab) tabs = -1).
  { unfold tabs in *. cbn [indexOf indexOf_from].
    apply not_elem_of_cons in Hout as [Hchat Hout].
    apply not_elem_of_cons in Hout as [Hgames Hout].
    apply not_elem_of_cons in Hout as [Hlearn Hout].
    apply not_elem_of_cons in Hout as [Hmodels _].
    repeat match goal with
           | |- context [String.eqb ?t tab] =>
               destruct (String.eqb_spec t tab); [congruence |]
           end.
    reflexivity. }
  unfold handleSwipe. rewrite Hindex.
  destruct (swipe_cases (startX - endX))
    as [(Hd & -> & -> & ->) | [(Hd & -> & -> & ->) | (Hd & ->)]]; simpl;
    split; intros; try reflexivity; lra.
Qed.

Lemma swipe_from_games :
  exists next,
    handleSwipe 300 120 (Some "games") = Some next /\ indexOf (Some next) tabs = 2.
Proof.
  destruct (handleSwipe_moves_one_tab 300 120 "games") as (next & Hnext & _ & Hleft & _ & _);
    [apply list_elem_of_In; simpl; tauto |].
  exists next. split; [exact Hnext |]. apply Hleft. vm_compute. reflexivity.
Defined.

Lemma swipe_from_settings :
  handleSwipe 300 120 (Some "settings") = Some "chat" /\
  handleSwipe 120 300 (Some "settings") = Some "settings".
Proof.
  destruct (handleSwipe_from_unknown_tab 300 120 "settings") as (Hleft & _);
    [intros Hin; apply list_elem_of_In in Hin; simpl in Hin; intuition discriminate |].
  destruct (handleSwipe_from_unknown_tab 120 300 "settings") as (_ & Hright);
    [intros Hin; apply list_elem_of_In in Hin; simpl in Hin; intuition discriminate |].
  split; [apply Hleft | apply Hright]; vm_compute; [reflexivity | discriminate].
Defined.

(** ** The history and the context *)

Lemma slice_from_last {A} (k : nat) (l : list A) :
  (0 < k)%nat -> slice_from (- Z.of_nat k) l = drop (length l - k) l.
Proof.
  intros Hk. unfold slice_from.
  destruct (Z.ltb_spec (- Z.of_nat k) 0) as [_ | Hge]; [| lia].
  f_equal. lia.
Qed.

Lemma saveToHistory_drop (u a : string) (history : list Message) :
  saveToHistory u a history =
  drop (length history + 2 - 20) (history ++ exchange (u, a))%list.
Proof.
  unfold saveToHistory, exchange. simpl fst. simpl snd.
  rewrite (slice_from_last 20) by lia. rewrite length_app. simpl length.
  destruct (Nat.ltb_spec 20 (length history + 2)) as [Hlong | Hshort]; [reflexivity |].
  replace (length history + 2 - 20)%nat with 0%nat by lia. reflexivity.
Qed.

Lemma drop_last_of_suffix {A} (k : nat) (l l' : list A) :
  l' `suffix_of` l -> (k <= length l')%nat ->
  drop (length l' - k) l' = drop (length l - k) l.
Proof.
  intros [before ->] Hk. rewrite length_app.
  rewrite drop_app_ge by lia. f_equal. lia.
Qed.

Lemma paired_drop_even (n : nat) (exchanges : list (string * string)) :
  drop (2 * n) (concat (map exchange exchanges)) = concat (map exchange (drop n exchanges)).
Proof.
  revert exchanges. induction n as [| n IH]; intros exchanges; [reflexivity |].
  destruct exchanges as [| pair rest]; [reflexivity |].
  replace (2 * S n)%nat with (S (S (2 * n))) by lia. simpl. apply IH.
Qed.

Lemma paired_length_even (exchanges : list (string * string)) :
  length (concat (map exchange exchanges)) = (2 * length exchanges)%nat.
Proof.
  induction exchanges as [| pair rest IH]; [reflexivity |].
  simpl. rewrite IH. lia.
Qed.

Lemma saveToHistory_shape (u a : string) (history : list Message) :
  length (saveToHistory u a history) = Nat.min (length history + 2) 20 /\
  saveToHistory u a history `suffix_of` (history ++ exchange (u, a))%list /\
  exchange (u, a) `suffix_of` saveToHistory u a history.
Proof.
  rewrite saveToHistory_drop.
  split; [rewrite length_drop, length_app; simpl; lia |].
  split; [apply suffix_drop |].
  exists (drop (length history + 2 - 20) history).
  destruct (Nat.le_gt_cases (length history + 2 - 20) (length history)) as [Hle | Hgt];
    [| lia].
  rewrite drop_app_le by exact Hle. reflexivity.
Qed.

(** X19.  [saveToHistory] appends the exchange and then keeps the last
    twenty messages: the history afterwards has the length of the old one
    plus two, but at most twenty; it is a final part of the old history
    followed by the exchange and ends with the exchange; and a history
    made of whole exchanges stays one, so that its first message is one
    of the user. *)
Theorem saveToHistory_keeps_last_twenty (u a : string) (history : list Message) :
  let history' := saveToHistory u a history in
  length history' = Nat.min (length history + 2) 20 /\
  history' `suffix_of` (history ++ exchange (u, a))%list /\
  exchange (u, a) `suffix_of` history' /\
  (paired history -> paired history').
Proof.
  intros history'. subst history'.
  destruct (saveToHistory_shape u a history) as (Hlen & Hsuffix & Hends).
  split; [exact Hlen |]. split; [exact Hsuffix |]. split; [exact Hends |].
  rewrite saveToHistory_drop. intros [exchanges ->].
  replace (concat (map exchange exchanges) ++ exchange (u, a))%list
    with (concat (map exchange (exchanges ++ [(u, a)]))).
  2:{ rewrite map_app, concat_app. simpl. rewrite ?app_nil_r. reflexivity. }
  rewrite paired_length_even.
  replace (2 * length exchanges + 2 - 20)%nat with (2 * (length exchanges + 1 - 10))%nat
    by lia.
  rewrite paired_drop_even. eexists. reflexivity.
Qed.

(** X20.  The context that [getConversationContext] builds after two
    exchanges, whatever the history before them, is the answer of the
    first, then the message and the answer of the second, one per line:
    the window of three messages on a history of pairs begins with an
    answer, and the question it answered is not part of the context. *)
Theorem context_is_last_answer_and_exchange (u a u' a' : string) (history : list Message) :
  getConversationContext (saveToHistory u' a' (saveToHistory u a history)) =
  "assistant: " +:+ a +:+ nl +:+ "user: " +:+ u' +:+ nl +:+ "assistant: " +:+ a'.
Proof.
  pose proof (saveToHistory_shape u a history) as (Hlen1 & _ & [older Hends]).
  pose proof (saveToHistory_shape u' a' (saveToHistory u a history))
    as (Hlen2 & Hsuffix & _).
  unfold getConversationContext. rewrite (slice_from_last 3) by lia.
  rewrite (drop_last_of_suffix 3 _ _ Hsuffix) by lia.
  rewrite length_app, Hlen1. rewrite Hends, <- app_assoc.
  assert (Holder : length older = (Nat.min (length history + 2) 20 - 2)%nat).
  { rewrite <- Hlen1, Hends, length_app. simpl. lia. }
  rewrite drop_app_ge by (simpl; lia).
  replace (Nat.min (length history + 2) 20 + length (exchange (u', a')) - 3 - length older)%nat
    with 1%nat by (simpl; lia).
  reflexivity.
Qed.

(** ** Answers *)

Lemma first_response_first_match (lowerMsg : string) before key response after :
  Forall (fun entry => includes lowerMsg (fst entry) = false) before ->
  includes lowerMsg key = true ->
  first_response lowerMsg (before ++ (key, response) :: after) = Some response.
Proof.
  intros Hbefore Hhit. induction Hbefore as [| [k0 r0] before Hmiss _ IH]; simpl.
  - rewrite Hhit. reflexivity.
  - simpl in Hmiss. rewrite Hmiss. exact IH.
Qed.

Lemma first_response_no_match (lowerMsg : string) entries :
  Forall (fun entry => includes lowerMsg (fst entry) = false) entries ->
  first_response lowerMsg entries = None.
Proof.
  intros Hnone. induction Hnone as [| [k0 r0] entries Hmiss _ IH]; simpl; [reflexivity |].
  simpl in Hmiss. rewrite Hmiss. exact IH.
Qed.

(** X21.  [getSmartResponse] answers with the entry of the first key of
    its table, in the order of the source, that occurs in the lower-cased
    message, whatever later keys occur as well, and so without regard to
    the case of the message; when no key occurs the answer quotes the
    message as it was typed. *)
Theorem getSmartResponse_first_key (message : string) :
  map fst smartResponses = ["привет"; "как дела"; "оффлайн"; "обучение"; "игры"; "память"] /\
  (forall before key response after,
     smartResponses = (before ++ (key, response) :: after)%list ->
     Forall (fun entry => includes (toLowerCase message) (fst entry) = false) before ->
     includes (toLowerCase message) key = true ->
     getSmartResponse message = response) /\
  (Forall (fun entry => includes (toLowerCase message) (fst entry) = false) smartResponses ->
   exists rest, getSmartResponse message = "🤔 " +:+ JSON.dq +:+ message +:+ JSON.dq +:+ rest).
Proof.
  split; [reflexivity |]. split.
  - intros before key response after Htable Hbefore Hhit.
    unfold getSmartResponse. rewrite Htable.
    rewrite (first_response_first_match _ _ _ _ _ Hbefore Hhit). reflexivity.
  - intros Hnone. unfold getSmartResponse.
    rewrite (first_response_no_match _ _ Hnone). unfold interesting_question.
    eexists. cbn [JSON.join]. cbv [JSON.dq]. simpl. reflexivity.
Qed.

Lemma shouted_greeting_is_answered :
  includes (toLowerCase "ПРИВЕТ, как дела?") "как дела" = true /\
  getSmartResponse "ПРИВЕТ, как дела?" =
  "Привет! 🎉 Я NeuroSputnik - твой оффлайн AI помощник. Работаю полностью без интернета!".
Proof.
  split; [vm_compute; reflexivity |].
  destruct (getSmartResponse_first_key "ПРИВЕТ, как дела?") as (_ & Hfirst & _).
  apply (Hfirst [] "привет" _ (tail smartResponses));
    [reflexivity | constructor | vm_compute; reflexivity].
Defined.

Section Application.
Context {W : Type} `{Runtime W} `{Platform}.

Lemma generateAIResponse_cases message context (s : System W) :
  match generateAIResponse message context s with
  | (Throws _, _) => False
  | (_, s') => engine s' = engine s
  end.
Proof.
  unfold generateAIResponse, bind, this, try_catch, ret. simpl.
  destruct (no_model (engine s)); simpl; [reflexivity |].
  pose proof (generateResponse_keeps_engine
                (buildPrompt message context)
                {| maxTokens := Some 500%Q; temperature := Some 0.7%Q; topP := None |} s)
    as Hkeep.
  destruct (generateResponse _ _ s) as [[t | e |] s1]; simpl in *; exact Hkeep.
Qed.

(** X22.  [generateAIResponse] never throws and leaves the fields of
    the engine alone.  Without a usable model it answers from the table
    of [getSmartResponse] and makes no foreign call.  With a model it
    passes on the text the engine returns; when the engine throws it
    answers from the table, in the state the failed call left; it hangs
    only when the engine does. *)
Theorem generateAIResponse_always_answers message context (s : System W) :
  let options := {| maxTokens := Some 500%Q; temperature := Some 0.7%Q; topP := None |} in
  let outcome := generateAIResponse message context s in
  (forall e, fst outcome <> Throws e) /\
  engine (snd outcome) = engine s /\
  (no_model (engine s) = true -> outcome = (Returns (getSmartResponse message), s)) /\
  (no_model (engine s) = false ->
   match generateResponse (buildPrompt message context) options s with
   | (Returns text, s') => outcome = (Returns text, s')
   | (Throws _, s') => outcome = (Returns (getSmartResponse message), s')
   | (Hangs, s') => outcome = (Hangs, s')
   end).
Proof.
  intros options outcome. subst outcome.
  pose proof (generateAIResponse_cases message context s) as Hcases.
  split; [| split; [| split]].
  - intros e. destruct (generateAIResponse message context s) as [[t | e' |] s1];
      simpl; [discriminate | contradiction | discriminate].
  - destruct (generateAIResponse message context s) as [[t | e' |] s1];
      simpl; [exact Hcases | contradiction | exact Hcases].
  - intros Hno. unfold generateAIResponse, bind, this, ret. simpl. rewrite Hno. reflexivity.
  - intros Hmodel. unfold generateAIResponse, bind, this, try_catch, ret. simpl.
    rewrite Hmodel. simpl. fold options.
    destruct (generateResponse (buildPrompt message context) options s) as [[t | e |] s1];
      reflexivity.
Qed.

Lemma removeThinkingIndicator_last (elements : list Element) type text :
  Thinking ∉ elements ->
  removeThinkingIndicator ((elements ++ [Bubble type text]) ++ [Thinking])
  = (elements ++ [Bubble type text])%list.
Proof.
  induction elements as [| element rest IH]; intros Hnone; [reflexivity |].
  apply not_elem_of_cons in Hnone as [Hhead Hrest].
  destruct element as [type' text' |]; [| congruence].
  simpl. rewrite (IH Hrest). reflexivity.
Qed.



End Application.


(** ** Memory usage *)

Lemma inject_Z_le (a b : Z) : a <= b <-> (inject_Z a <= inject_Z b)%Q.
Proof. rewrite Zle_Qle. reflexivity. Qed.

Lemma inject_Z_lt (a b : Z) : a < b <-> (inject_Z a < inject_Z b)%Q.
Proof. rewrite Zlt_Qlt. reflexivity. Qed.

Lemma round_mono (x y : Q) : (x <= y)%Q -> round x <= round y.
Proof. intros Hle. unfold round. apply Qfloor_resp_le. lra. Qed.

Lemma round_spec (x : Q) :
  (inject_Z (round x) <= x + (1 # 2) /\ x + (1 # 2) < inject_Z (round x) + 1)%Q.
Proof.
  unfold round. split; [apply Qfloor_le |].
  pose proof (Qlt_floor (x + (1 # 2))) as Hlt.
  rewrite inject_Z_plus in Hlt. exact Hlt.
Qed.

Lemma round_unique (x : Q) (n : Z) :
  (inject_Z n <= x + (1 # 2))%Q -> (x + (1 # 2) < inject_Z n + 1)%Q -> round x = n.
Proof.
  intros Hlow Hhigh. destruct (round_spec x) as [Hlow' Hhigh'].
  assert (H1 : n < round x + 1) by (apply inject_Z_lt; rewrite inject_Z_plus; change (inject_Z 1) with 1%Q; lra).
  assert (H2 : round x < n + 1) by (apply inject_Z_lt; rewrite inject_Z_plus; change (inject_Z 1) with 1%Q; lra).
  lia.
Qed.

Lemma ratio_in_unit (used total : Z) :
  0 <= used <= total -> 0 < total ->
  (0 <= inject_Z used / inject_Z total <= 1)%Q.
Proof.
  intros [Hlow Hhigh] Hpos.
  assert (Htotal : (0 < inject_Z total)%Q) by exact (proj1 (inject_Z_lt 0 total) Hpos).
  assert (Hused : (0 <= inject_Z used)%Q) by exact (proj1 (inject_Z_le 0 used) Hlow).
  assert (Hle : (inject_Z used <= inject_Z total)%Q) by exact (proj1 (inject_Z_le used total) Hhigh).
  split.
  - apply Qle_shift_div_l; [exact Htotal | lra].
  - apply Qle_shift_div_r; [exact Htotal | lra].
Qed.

Lemma mib_eq (x : Q) : (x / 1024 / 1024 == x * (1 # 1048576))%Q.
Proof. field. Qed.

(** X25.  On an initialized engine whose runtime reports a used size
    between zero and a positive total, [getMemoryUsage] returns an object
    whose two sizes are the byte counts rounded to the nearest MiB, the
    used one not above the total one, and whose percentage lies between
    0 and 100, with 0 for nothing used and 100 for everything used.
    On an engine that is not initialized it returns the bare number zero
    instead of an object. *)
Theorem getMemoryUsage_in_range (e : OllamaWebEngine) (used total : Z) :
  0 <= used <= total -> 0 < total ->
  (isInitialized e = false -> getMemoryUsage e used total = NoUsage) /\
  (isInitialized e = true ->
   exists u t p,
     getMemoryUsage e used total = Usage u t (Some p) /\
     0 <= u <= t /\
     2 * 1048576 * u <= 2 * used + 1048576 < 2 * 1048576 * (u + 1) /\
     0 <= p <= 100 /\
     (used = 0 -> p = 0) /\ (used = total -> p = 100)).
Proof.
  intros Hrange Hpos. unfold getMemoryUsage. split; intros ->; simpl; [reflexivity |].
  destruct (Z.eqb_spec total 0) as [Hzero | _]; [lia |].
  pose proof (ratio_in_unit used total Hrange Hpos) as [Hlow Hhigh].
  assert (Hused : (0 <= inject_Z used)%Q) by exact (proj1 (inject_Z_le 0 used) (proj1 Hrange)).
  assert (Hle : (inject_Z used <= inject_Z total)%Q) by exact (proj1 (inject_Z_le used total) (proj2 Hrange)).
  assert (Htotal : (0 < inject_Z total)%Q) by exact (proj1 (inject_Z_lt 0 total) Hpos).
  eexists _, _, _. split; [reflexivity |].
  split; [split |]; [| | split; [| split; [| split]]].
  - transitivity (round 0); [vm_compute; discriminate |].
    apply round_mono. rewrite mib_eq. lra.
  - apply round_mono. rewrite !mib_eq. lra.
  - destruct (round_spec (inject_Z used / 1024 / 1024)) as [Hl Hh].
    assert (Hl' : (inject_Z (round (inject_Z used / 1024 / 1024))
                   <= inject_Z used * (1 # 1048576) + (1 # 2))%Q)
      by (rewrite <- mib_eq; exact Hl).
    assert (Hh' : (inject_Z used * (1 # 1048576) + (1 # 2)
                   < inject_Z (round (inject_Z used / 1024 / 1024)) + 1)%Q)
      by (rewrite <- mib_eq; exact Hh).
    clear Hl Hh. set (u := round (inject_Z used / 1024 / 1024)) in *.
    split.
    + apply inject_Z_le. rewrite ?inject_Z_plus, ?inject_Z_mult.
      change (inject_Z 2) with 2%Q. change (inject_Z 1048576) with 1048576%Q. lra.
    + apply inject_Z_lt. rewrite ?inject_Z_plus, ?inject_Z_mult, ?inject_Z_plus.
      change (inject_Z 2) with 2%Q. change (inject_Z 1048576) with 1048576%Q.
      change (inject_Z 1) with 1%Q. lra.
  - revert Hlow Hhigh. generalize (inject_Z used / inject_Z total)%Q.
    intros ratio Hlow Hhigh. split.
    + transitivity (round 0); [vm_compute; discriminate | apply round_mono; lra].
    + transitivity (round 100); [apply round_mono; lra | vm_compute; discriminate].
  - intros ->. change (inject_Z 0) with 0%Q.
    assert (Hnone : (0 / inject_Z total * 100 == 0)%Q) by (unfold Qdiv; ring).
    apply round_unique; rewrite Hnone; change (inject_Z 0) with 0%Q; lra.
  - intros ->.
    assert (Hall : (inject_Z total / inject_Z total * 100 == 100)%Q) by (field; lra).
    apply round_unique; rewrite Hall; change (inject_Z 100) with 100%Q; lra.
Qed.

Lemma a_quarter_of_the_memory :
  exists u t p,
    getMemoryUsage initialized_engine (128 * 1048576) (512 * 1048576) = Usage u t (Some p) /\
    0 <= u <= t /\ 0 <= p <= 100.
Proof.
  destruct (getMemoryUsage_in_range initialized_engine (128 * 1048576) (512 * 1048576))
    as (_ & Hobject); [lia | lia |].
  assert (Hinit : isInitialized initialized_engine = true) by (vm_compute; reflexivity).
  destruct (Hobject Hinit) as (u & t & p & Husage & Hsizes & _ & Hp & _).
  exists u, t, p. split; [exact Husage |]. split; assumption.
Defined.

(** * Properties of the service worker *)

(** ** Activation *)

Lemma caches_delete_filter (name : string) (keep : string -> bool) (storage : CacheStorage) :
  caches_delete name (List.filter (fun named => keep (fst named)) storage)
  = List.filter (fun named => keep (fst named) && negb (String.eqb (fst named) name)) storage.
Proof.
  unfold caches_delete. induction storage as [| [n c] rest IH]; [reflexivity |].
  simpl. destruct (keep n); simpl; [| exact IH].
  destruct (String.eqb n name); simpl; [exact IH | rewrite IH; reflexivity].
Qed.

Lemma filter_ext_elem {A} (f g : A -> bool) (l : list A) :
  (forall x, x ∈ l -> f x = g x) -> List.filter f l = List.filter g l.
Proof.
  intros Hext. induction l as [| x rest IH]; [reflexivity |].
  simpl. rewrite (Hext x) by (apply elem_of_cons; left; reflexivity).
  rewrite IH; [reflexivity |].
  intros y Hy. apply Hext. apply elem_of_cons. right. exact Hy.
Qed.

Lemma filter_true {A} (l : list A) : List.filter (fun _ => true) l = l.
Proof. induction l as [| x rest IH]; [reflexivity |]. simpl. rewrite IH. reflexivity. Qed.

(** The deletions of [activate], one name after the other, remove the
    caches whose name is among the names and not one of the two. *)
Lemma activate_fold (names : list string) (keep : string -> bool) (storage : CacheStorage) :
  fold_left
    (fun storage cacheName =>
       if negb (String.eqb cacheName CACHE_NAME) && negb (String.eqb cacheName RUNTIME_CACHE)
       then caches_delete cacheName storage
       else storage)
    names (List.filter (fun named => keep (fst named)) storage)
  = List.filter
      (fun named => keep (fst named)
                    && negb (existsb (fun name => negb (kept name) && String.eqb (fst named) name)
                               names))
      storage.
Proof.
  revert keep. induction names as [| name rest IH]; intros keep; simpl.
  - apply filter_ext_elem. intros x _. rewrite andb_true_r. reflexivity.
  - assert (Hkept : negb (String.eqb name CACHE_NAME) && negb (String.eqb name RUNTIME_CACHE)
                    = negb (kept name)).
    { unfold kept. rewrite negb_orb. reflexivity. }
    rewrite Hkept. destruct (kept name) eqn:Hname; simpl.
    + apply (IH keep).
    + rewrite caches_delete_filter.
      rewrite (IH (fun n => keep n && negb (String.eqb n name))).
      apply filter_ext_elem. intros [n c] _. simpl.
      rewrite negb_orb, andb_assoc. reflexivity.
Qed.

Lemma on_activate_filter (storage : CacheStorage) :
  on_activate storage = List.filter (fun named => kept (fst named)) storage.
Proof.
  unfold on_activate.
  rewrite <- (filter_true storage) at 2.
  rewrite (activate_fold (map fst storage) (fun _ => true) storage).
  apply filter_ext_elem. intros [n c] Hin. simpl.
  destruct (kept n) eqn:Hn.
  - replace (existsb _ _) with false; [reflexivity |].
    symmetry. apply not_true_is_false. intros Hex.
    apply existsb_exists in Hex as (name & _ & Hname).
    apply andb_true_iff in Hname as [Hnot Heq].
    apply String.eqb_eq in Heq. subst name. rewrite Hn in Hnot. discriminate.
  - replace (existsb _ _) with true; [reflexivity |].
    symmetry. apply existsb_exists. exists n. split.
    + apply in_map_iff. exists (n, c). split; [reflexivity |].
      apply list_elem_of_In. exact Hin.
    + rewrite Hn, String.eqb_refl. reflexivity.
Qed.

Lemma caches_match_found (request : HttpRequest) (storage : CacheStorage) response :
  caches_match request storage = Some response ->
  exists name cache, (name, cache) ∈ storage /\ cache_match request cache = Some response.
Proof.
  induction storage as [| [n c] rest IH]; simpl; [discriminate |].
  destruct (cache_match request c) as [found |] eqn:Hmatch.
  - intros [= <-]. exists n, c. split; [apply elem_of_cons; left; reflexivity | exact Hmatch].
  - intros Hrest. destruct (IH Hrest) as (name & cache & Hin & Hfound).
    exists name, cache. split; [apply elem_of_cons; right; exact Hin | exact Hfound].
Qed.

(** X26.  The [activate] handler, which deletes the caches one name
    after the other, leaves exactly the caches named [CACHE_NAME] and
    [RUNTIME_CACHE], with their contents and in their order; running it
    again changes nothing; and afterwards a request is only ever answered
    from one of these two caches. *)
Theorem on_activate_keeps_two_caches (storage : CacheStorage) :
  on_activate storage = List.filter (fun named => kept (fst named)) storage /\
  on_activate (on_activate storage) = on_activate storage /\
  (forall name cache,
     (name, cache) ∈ on_activate storage <->
     (name, cache) ∈ storage /\ (name = CACHE_NAME \/ name = RUNTIME_CACHE)) /\
  (forall request response,
     caches_match request (on_activate storage) = Some response ->
     exists name cache,
       (name = CACHE_NAME \/ name = RUNTIME_CACHE) /\ (name, cache) ∈ storage /\
       cache_match request cache = Some response).
Proof.
  assert (Hkept : forall name, kept name = true <-> name = CACHE_NAME \/ name = RUNTIME_CACHE).
  { intros name. unfold kept. rewrite orb_true_iff, !String.eqb_eq. reflexivity. }
  assert (Hin : forall name cache,
             (name, cache) ∈ on_activate storage <->
             (name, cache) ∈ storage /\ (name = CACHE_NAME \/ name = RUNTIME_CACHE)).
  { intros name cache. rewrite on_activate_filter, !list_elem_of_In, filter_In.
    simpl. rewrite Hkept. reflexivity. }
  split; [apply on_activate_filter |]. split; [| split; [exact Hin |]].
  - rewrite !on_activate_filter.
    rewrite <- (filter_true (List.filter _ storage)) at 2.
    apply filter_ext_elem. intros [n c] Hn.
    apply list_elem_of_In, filter_In in Hn as [_ Hn]. exact Hn.
  - intros request response Hmatch.
    destruct (caches_match_found _ _ _ Hmatch) as (name & cache & Hfound & Hcache).
    apply Hin in Hfound as [Hfound Hname].
    exists name, cache. split; [exact Hname |]. split; assumption.
Qed.

(** ** Requests *)

Lemma lookup_url_put (u : string) (response : Response) (cache : Cache) :
  lookup_url u
    (List.filter (fun entry => negb (String.eqb (fst entry) u)) cache ++ [(u, response)])%list
  = Some response.
Proof.
  induction cache as [| [k r] rest IH]; simpl; [rewrite String.eqb_refl; reflexivity |].
  destruct (String.eqb k u) eqn:Hk; simpl; [exact IH |].
  rewrite Hk. exact IH.
Qed.

Lemma storable_get (request : HttpRequest) (response : Response) :
  storable request response = true ->
  method request = "GET" /\ startsWith_http (url request) = true.
Proof.
  unfold storable. rewrite !andb_true_iff, String.eqb_eq. tauto.
Qed.

Lemma cache_match_put (request : HttpRequest) (response : Response) (cache : Cache) :
  storable request response = true ->
  cache_match request (cache_put request response cache) = Some response.
Proof.
  intros Hstorable. destruct (storable_get _ _ Hstorable) as [Hget _].
  unfold cache_match, cache_put. rewrite Hget, Hstorable. simpl.
  apply lookup_url_put.
Qed.

Lemma caches_match_open (request : HttpRequest) (name : string) (storage : CacheStorage) :
  caches_match request (caches_open name storage) = caches_match request storage.
Proof.
  unfold caches_open. destruct (has_cache name storage); [reflexivity |].
  induction storage as [| [n c] rest IH]; simpl.
  - unfold cache_match. destruct (String.eqb (method request) "GET"); reflexivity.
  - destruct (cache_match request c); [reflexivity | exact IH].
Qed.

Lemma has_cache_open (name : string) (storage : CacheStorage) :
  has_cache name (caches_open name storage) = true.
Proof.
  unfold caches_open. destruct (has_cache name storage) eqn:Hhas; [exact Hhas |].
  unfold has_cache. rewrite existsb_app. simpl. rewrite String.eqb_refl.
  rewrite orb_true_r. reflexivity.
Qed.

Lemma caches_match_put (request : HttpRequest) (response : Response) (name : string)
    (storage : CacheStorage) :
  storable request response = true ->
  caches_match request storage = None -> has_cache name storage = true ->
  caches_match request (in_cache name (cache_put request response) storage) = Some response.
Proof.
  intros Hstorable. induction storage as [| [n c] rest IH]; simpl; [discriminate |].
  destruct (cache_match request c) eqn:Hmatch; [discriminate |].
  intros Hrest Hhas. destruct (String.eqb n name) eqn:Hn; simpl.
  - rewrite (cache_match_put _ _ _ Hstorable). reflexivity.
  - rewrite Hmatch. apply IH; assumption.
Qed.

(** X27.  A [GET] request that no cache answers and that the network
    answers with status 200, and without the header [Vary: *], gets the
    response of the network, and from then on the response is served from
    the runtime cache whatever the network does, also when it fails. *)
Theorem fetched_page_is_served_offline (network : Network) (request : HttpRequest)
    (response : Response) (storage : CacheStorage) :
  startsWith_http (url request) = true ->
  method request = "GET" ->
  caches_match request storage = None ->
  network request = Some response ->
  status response = 200 ->
  varies_on_everything response = false ->
  exists storage',
    on_fetch network request storage = Some (response, storage') /\
    forall later : Network, on_fetch later request storage' = Some (response, storage').
Proof.
  intros Hhttp Hget Hmiss Hnet Hok Hvary. unfold on_fetch.
  rewrite Hhttp, Hmiss, Hnet, Hok. simpl. eexists. split; [reflexivity |].
  intros later.
  assert (Hstorable : storable request response = true).
  { unfold storable. rewrite Hget, Hhttp, Hok, Hvary. reflexivity. }
  rewrite (caches_match_put request response RUNTIME_CACHE
             (caches_open RUNTIME_CACHE storage) Hstorable).
  - reflexivity.
  - rewrite caches_match_open. exact Hmiss.
  - apply has_cache_open.
Qed.

Lemma in_cache_elem (name : string) (f : Cache -> Cache) (storage : CacheStorage) n c' :
  (n, c') ∈ in_cache name f storage ->
  exists c, (n, c) ∈ storage /\ (c' = c \/ (n = name /\ c' = f c)).
Proof.
  unfold in_cache. intros Hin. apply list_elem_of_In, in_map_iff in Hin as ([n0 c0] & Heq & Hin).
  apply list_elem_of_In in Hin. simpl in Heq.
  destruct (String.eqb_spec n0 name) as [-> | Hother]; injection Heq as <- <-;
    exists c0; (split; [exact Hin |]); [right; split; reflexivity | left; reflexivity].
Qed.

Lemma cache_put_elem (request : HttpRequest) (response : Response) (cache : Cache) u r :
  (u, r) ∈ cache_put request response cache ->
  (u, r) ∈ cache \/ (u = url request /\ r = response /\ method request = "GET").
Proof.
  unfold cache_put. destruct (storable request response) eqn:Hstorable; [| left; assumption].
  destruct (storable_get _ _ Hstorable) as [Hget _].
  intros Hin. apply elem_of_app in Hin as [Hin | Hin].
  - left. apply list_elem_of_In, filter_In in Hin as [Hin _]. apply list_elem_of_In. exact Hin.
  - right. apply list_elem_of_singleton in Hin. injection Hin as -> ->. auto.
Qed.

Lemma caches_open_elem (name : string) (storage : CacheStorage) n c :
  (n, c) ∈ caches_open name storage -> (n, c) ∈ storage \/ (n = name /\ c = []).
Proof.
  unfold caches_open. destruct (has_cache name storage); [left; assumption |].
  intros Hin. apply elem_of_app in Hin as [Hin | Hin]; [left; exact Hin |].
  right. apply list_elem_of_singleton in Hin. injection Hin as -> ->. auto.
Qed.

(** X28.  The fetch handler answers only requests whose URL starts with
    [http].  A request that a cache answers gets the cached response and
    leaves the storage as it is, whatever the network would say.  And
    whatever the handler answers, the only entry it may add to the
    storage is the response that the network gave to a [GET] request
    with status 200, under the URL of the request in the runtime cache:
    responses with another status and the answer given while the network
    fails are not stored, and no other cache receives an entry. *)
Theorem on_fetch_stores_only_successful_answers (network : Network) (request : HttpRequest)
    (storage storage' : CacheStorage) (response : Response) :
  on_fetch network request storage = Some (response, storage') ->
  startsWith_http (url request) = true /\
  (forall cached,
     caches_match request storage = Some cached -> response = cached /\ storage' = storage) /\
  (forall name cache u r,
     (name, cache) ∈ storage' -> (u, r) ∈ cache ->
     (exists cache0, (name, cache0) ∈ storage /\ (u, r) ∈ cache0) \/
     (name = RUNTIME_CACHE /\ u = url request /\ r = response /\
      method request = "GET" /\ network request = Some response /\ status response = 200)).
Proof.
  unfold on_fetch. destruct (startsWith_http (url request)); simpl; [| discriminate].
  intros Hfetch. split; [reflexivity |].
  destruct (caches_match request storage) as [cached |] eqn:Hmatch.
  { injection Hfetch as <- <-. split; [intros c [= <-]; split; reflexivity |].
    intros name cache u r Hin Hentry. left. exists cache. split; assumption. }
  split; [discriminate |].
  assert (Hopened : forall name cache u r,
             (name, cache) ∈ caches_open RUNTIME_CACHE storage -> (u, r) ∈ cache ->
             exists cache0, (name, cache0) ∈ storage /\ (u, r) ∈ cache0).
  { intros name cache u r Hin Hentry.
    apply caches_open_elem in Hin as [Hin | [_ ->]]; [eauto | inversion Hentry]. }
  destruct (network request) as [answer |] eqn:Hnet.
  - destruct (Z.eqb_spec (status answer) 200) as [Hok | Hother];
      injection Hfetch as <- <-; intros name cache u r Hin Hentry.
    + apply in_cache_elem in Hin as (c & Hin & [-> | [-> ->]]).
      * left. exact (Hopened _ _ _ _ Hin Hentry).
      * apply cache_put_elem in Hentry as [Hentry | (-> & -> & Hget)].
        -- left. exact (Hopened _ _ _ _ Hin Hentry).
        -- right. repeat split; assumption.
    + left. exact (Hopened _ _ _ _ Hin Hentry).
  - injection Hfetch as <- <-. intros name cache u r Hin Hentry.
    left. exact (Hopened _ _ _ _ Hin Hentry).
Qed.

(** ** Installation *)

Lemma lookup_url_some (u : string) (cache : Cache) :
  In u (map fst cache) -> exists r, lookup_url u cache = Some r.
Proof.
  induction cache as [| [k r] rest IH]; simpl; [contradiction |].
  intros [-> | Hin]; [rewrite String.eqb_refl; eauto |].
  destruct (String.eqb k u); eauto.
Qed.

Lemma put_keys_old (request : HttpRequest) (response : Response) (cache : Cache) u :
  In u (map fst cache) -> In u (map fst (cache_put request response cache)).
Proof.
  unfold cache_put.
  destruct (storable request response); [| trivial].
  intros Hin. rewrite map_app, in_app_iff.
  destruct (String.eqb_spec u (url request)) as [-> | Hother]; [right; left; reflexivity |].
  left. apply in_map_iff in Hin as ([k r] & <- & Hin). apply in_map_iff.
  exists (k, r). split; [reflexivity |]. apply filter_In. split; [exact Hin |].
  simpl in *. destruct (String.eqb_spec k (url request)); [contradiction | reflexivity].
Qed.

Lemma put_keys_new (request : HttpRequest) (response : Response) (cache : Cache) :
  storable request response = true ->
  In (url request) (map fst (cache_put request response cache)).
Proof.
  intros Hstorable. unfold cache_put. rewrite Hstorable.
  rewrite map_app, in_app_iff. right. left. reflexivity.
Qed.

Lemma fold_keys_old (fetched : list (HttpRequest * option Response)) (cache : Cache) u :
  In u (map fst cache) ->
  In u (map fst (fold_left (fun cache pair => match snd pair with
                                              | Some response =>
                                                  cache_put (fst pair) response cache
                                              | None => cache
                                              end) fetched cache)).
Proof.
  revert cache. induction fetched as [| [request [response |]] rest IH]; intros cache Hin;
    simpl; [exact Hin | | apply IH; exact Hin].
  apply IH. apply put_keys_old. exact Hin.
Qed.

Lemma fold_keys_new (fetched : list (HttpRequest * option Response)) (cache : Cache)
    request response :
  In (request, Some response) fetched ->
  storable request response = true ->
  In (url request)
     (map fst (fold_left (fun cache pair => match snd pair with
                                            | Some response =>
                                                cache_put (fst pair) response cache
                                            | None => cache
                                            end) fetched cache)).
Proof.
  intros Hin Hstorable. revert cache.
  induction fetched as [| [request' answer] rest IH]; intros cache; [contradiction |].
  destruct Hin as [[= -> ->] | Hin]; simpl.
  - apply fold_keys_old. apply put_keys_new; assumption.
  - apply IH. exact Hin.
Qed.

Lemma caches_match_hit (request : HttpRequest) (storage : CacheStorage) name cache response :
  (name, cache) ∈ storage -> cache_match request cache = Some response ->
  exists found, caches_match request storage = Some found.
Proof.
  intros Hin Hmatch. induction storage as [| [n c] rest IH]; [inversion Hin |].
  simpl. destruct (cache_match request c) as [found |] eqn:Hc; [eauto |].
  apply elem_of_cons in Hin as [[= -> ->] | Hin]; [congruence | exact (IH Hin)].
Qed.

Lemma in_cache_named (name : string) (f : Cache -> Cache) (storage : CacheStorage) :
  has_cache name storage = true ->
  (name, f (cache_named name storage)) ∈ in_cache name f storage.
Proof.
  unfold has_cache, cache_named, in_cache.
  induction storage as [| [n c] rest IH]; simpl; [discriminate |].
  destruct (String.eqb_spec n name) as [-> | Hother]; simpl.
  - intros _. apply elem_of_cons. left. reflexivity.
  - intros Hrest. apply elem_of_cons. right. exact (IH Hrest).
Qed.

Lemma addAll_outcome (origin : string) (network : Network) (urls : list string)
    (cache : Cache) :
  let answered path :=
    exists response,
      network (get (origin +:+ path)) = Some response /\ ok_to_add response = true /\
      startsWith_http (origin +:+ path) = true in
  match addAll origin network urls cache with
  | Some cache' =>
      (forall path, In path urls -> answered path) /\
      (forall path, In path urls -> In (origin +:+ path) (map fst cache'))
  | None => ~ (forall path, In path urls -> answered path)
  end.
Proof.
  intros answered. unfold addAll.
  set (fetched := map (fun request => (request, network request))
                      (map (fun path => {| url := origin +:+ path; method := "GET" |}) urls)).
  assert (Hfetched : forall path, In path urls ->
                       In (get (origin +:+ path), network (get (origin +:+ path))) fetched).
  { intros path Hin. unfold fetched.
    apply in_map_iff. exists (get (origin +:+ path)). split; [reflexivity |].
    apply in_map_iff. exists path. split; [reflexivity | exact Hin]. }
  destruct (forallb _ fetched) eqn:Hevery.
  - rewrite forallb_forall in Hevery.
    assert (Hanswered : forall path, In path urls -> answered path).
    { intros path Hin. specialize (Hevery _ (Hfetched path Hin)). cbn [snd fst] in Hevery.
      destruct (network (get (origin +:+ path))) as [response |] eqn:Hnet; [| discriminate].
      apply andb_true_iff in Hevery as [Hok Hhttp]. exists response.
      split; [exact Hnet |]. split; [exact Hok | exact Hhttp]. }
    split; [exact Hanswered |].
    intros path Hin. destruct (Hanswered path Hin) as (response & Hnet & Hok & Hhttp).
    pose proof (Hfetched path Hin) as Hpair. rewrite Hnet in Hpair.
    apply (fold_keys_new fetched cache _ _ Hpair).
    unfold ok_to_add in Hok. unfold storable. cbn [method url get].
    rewrite !andb_true_iff in Hok. destruct Hok as [[[_ _] Hpartial] Hvary].
    rewrite Hhttp, Hpartial, Hvary. reflexivity.
  - intros Hanswered.
    assert (Hall : forallb (fun pair => match snd pair with
                                        | Some response =>
                                            ok_to_add response
                                            && startsWith_http (url (fst pair))
                                        | None => false
                                        end) fetched = true); [| congruence].
    apply forallb_forall. intros [request answer] Hin. unfold fetched in Hin.
    apply in_map_iff in Hin as (request' & [= <- <-] & Hin).
    apply in_map_iff in Hin as (path & <- & Hin).
    destruct (Hanswered path Hin) as (response & Hnet & Hok & Hhttp).
    cbn [snd fst url]. change (network {| url := origin +:+ path; method := "GET" |})
      with (network (get (origin +:+ path))).
    rewrite Hnet, Hok, Hhttp. reflexivity.
Qed.

(** X29.  The [install] handler is all or nothing.  It succeeds, and
    calls [skipWaiting], exactly when the network answers every URL of
    [PRECACHE_URLS] with a status from 200 to 299 other than 206 and
    without the header [Vary: *]; a single failure leaves the cache of this version as [caches.open] made
    it, with no response added.  After a successful installation every
    one of these URLs is answered from the storage, whatever the network
    does, and the answer leaves the storage unchanged. *)
Theorem installed_pages_are_served_offline (origin : string) (network : Network)
    (storage : CacheStorage) :
  let outcome := on_install origin network storage in
  let answered path :=
    exists response,
      network (get (origin +:+ path)) = Some response /\ ok_to_add response = true /\
      startsWith_http (origin +:+ path) = true in
  (fst outcome = true <-> forall path, In path PRECACHE_URLS -> answered path) /\
  (fst outcome = false -> snd outcome = caches_open CACHE_NAME storage) /\
  (fst outcome = true ->
   forall path (later : Network),
     In path PRECACHE_URLS ->
     exists response,
       on_fetch later (get (origin +:+ path)) (snd outcome) = Some (response, snd outcome)).
Proof.
  intros outcome answered. subst outcome. unfold on_install.
  pose proof (addAll_outcome origin network PRECACHE_URLS
                (cache_named CACHE_NAME (caches_open CACHE_NAME storage))) as Hadd.
  cbv zeta in Hadd. fold answered in Hadd.
  destruct (addAll origin network PRECACHE_URLS
              (cache_named CACHE_NAME (caches_open CACHE_NAME storage))) as [cache |];
    cbn [fst snd].
  - destruct Hadd as [Hanswered Hkeys].
    split; [split; [intros _; exact Hanswered | reflexivity] |].
    split; [discriminate |].
    intros _ path later Hin.
    destruct (Hanswered path Hin) as (response & _ & _ & Hhttp).
    destruct (lookup_url_some _ _ (Hkeys path Hin)) as (stored & Hstored).
    assert (Hcache : (CACHE_NAME, cache)
                       ∈ in_cache CACHE_NAME (fun _ => cache) (caches_open CACHE_NAME storage)).
    { apply (in_cache_named CACHE_NAME (fun _ => cache)). apply has_cache_open. }
    destruct (caches_match_hit (get (origin +:+ path)) _ _ _ stored Hcache)
      as (found & Hfound); [exact Hstored |].
    exists found. unfold on_fetch. cbn [url get]. rewrite Hhttp, Hfound. reflexivity.
  - split; [split; [discriminate | intros Hanswered; contradiction] |].
    split; [reflexivity | discriminate].
Qed.

(** The theorems on a storage that an older version of the worker left:
    a page fetched while online is served while offline, and a failed
    request stores nothing. *)
Lemma page_fetched_online_is_served_offline :
  exists storage',
    on_fetch online (get "https://app.example/index.html") (on_activate old_storage)
    = Some (page "<html></html>", storage') /\
    on_fetch offline (get "https://app.example/index.html") storage'
    = Some (page "<html></html>", storage').
Proof.
  destruct (fetched_page_is_served_offline online (get "https://app.example/index.html")
              (page "<html></html>") (on_activate old_storage))
    as (storage' & Hfirst & Hlater); try reflexivity.
  exists storage'. split; [exact Hfirst | apply Hlater].
Defined.

Lemma fetched_page_is_the_only_new_entry :
  let request := get "https://app.example/index.html" in
  let storage' :=
    [ ("neuro-sputnik-v0.9.0", [("https://app.example/old.js", page "old")]);
      ("runtime-cache", [("https://app.example/index.html", page "<html></html>")]) ] in
  on_fetch online request old_storage = Some (page "<html></html>", storage') /\
  forall name cache u r,
    (name, cache) ∈ storage' -> (u, r) ∈ cache ->
    (exists cache0, (name, cache0) ∈ old_storage /\ (u, r) ∈ cache0) \/
    (name = RUNTIME_CACHE /\ u = url request /\ r = page "<html></html>").
Proof.
  intros request storage'.
  assert (Hfetch : on_fetch online request old_storage = Some (page "<html></html>", storage'))
    by (vm_compute; reflexivity).
  destruct (on_fetch_stores_only_successful_answers online request old_storage storage'
              (page "<html></html>") Hfetch)
    as (_ & _ & Hstored).
  split; [exact Hfetch |].
  intros name cache u r Hin Hentry.
  destruct (Hstored name cache u r Hin Hentry) as [Hold | (Hn & Hu & Hr & _)].
  - left. exact Hold.
  - right. repeat split; assumption.
Defined.
